(** * FastK driver: layout planner, resource guard and stage sequencing

    A shallow embedding of [main] of FastK.c (non-DEVELOPER build): the
    option loop, the scratch-path check, the computation of every global
    size (NPARTS, MOD_LEN, SLEN_BITS, ...), the file-descriptor guard and
    the calls of the four pipeline stages.

    C integers are integers of [Z] with the wrap-around of their width
    written out; [exit] and the messages on stderr are explicit. *)

From Stdlib Require Import ZArith List String Ascii Lia Bool.
From Stdlib Require Import Init.Byte Strings.Byte.
From Equations Require Import Equations.
Import ListNotations.

Local Open Scope Z_scope.

(** ** Machine integers

    An int has 32 bits, int64 and uint64 have 64, negative numbers are in
    two's complement. *)

Module MachineInt.

(** Signed two's-complement value of [z] on [w] bits. *)
Definition wrap (w : Z) (z : Z) : Z :=
  (z + 2 ^ (w - 1)) mod 2 ^ w - 2 ^ (w - 1).

(** [int] and [int64]. *)
Definition wrap32 : Z -> Z := wrap 32.
Definition wrap64 : Z -> Z := wrap 64.

(** Conversion to [unsigned] and to [uint64]. *)
Definition to_uint32 (z : Z) : Z := z mod 2 ^ 32.
Definition to_uint64 (z : Z) : Z := z mod 2 ^ 64.

Definition int_range (z : Z) : Prop := - 2 ^ 31 <= z < 2 ^ 31.
Definition int64_range (z : Z) : Prop := - 2 ^ 63 <= z < 2 ^ 63.

End MachineInt.

Import MachineInt.

(** ** The layout planner (FastK.c, lines 359-407) *)

Module Planner.

(** Modelled from the spec: DATA_BLOCK, which FastK.h declares, is the
    sample statistics of the first block: the total base count
    [block->totlen], the record count [block->nreads] and a size
    estimation ratio [block->ratio].  main stores [totlen] in an int64 and
    multiplies [nreads] by the int KMER.  The ratio is a floating-point
    factor that main uses once, in [gsize*block->ratio*rsize]; the field
    is represented by that product, converted back to int64:
    [ratio_product gsize rsize]. *)
Record DATA_BLOCK := {
  totlen : Z;
  nreads : Z;
  ratio_product : Z -> Z -> Z
}.

(** [KMER_BYTES = (KMER*2+7) >> 3] *)
Definition KMER_BYTES_of (KMER : Z) : Z :=
  Z.shiftr (wrap32 (wrap32 (KMER * 2) + 7)) 3.

(** [rsize = KMER_BYTES + 2] *)
Definition rsize_of (KMER : Z) : Z := wrap32 (KMER_BYTES_of KMER + 2).

(** [gsize = block->totlen - KMER*block->nreads]: the product is an int
    product, the difference an int64 one. *)
Definition gsize_of (KMER : Z) (block : DATA_BLOCK) : Z :=
  wrap64 (totlen block - wrap32 (KMER * nreads block)).

(** [gsize < block->totlen/3], with C's truncating division. *)
Definition too_short (KMER : Z) (block : DATA_BLOCK) : bool :=
  gsize_of KMER block <? Z.quot (totlen block) 3.

(** [gsize = gsize*block->ratio*rsize] *)
Definition projected (KMER : Z) (block : DATA_BLOCK) : Z :=
  ratio_product block (gsize_of KMER block) (rsize_of KMER).

(** [NPARTS = (gsize-1)/SORT_MEMORY + 1]: int64 arithmetic with truncating
    division, stored in an int. *)
Definition NPARTS_of (gsize SORT_MEMORY : Z) : Z :=
  wrap32 (wrap64 (Z.quot (wrap64 (gsize - 1)) SORT_MEMORY + 1)).

(** [while (MOD_LEN < KMER) MOD_LEN <<= 1;]  One unit of fuel pays for one
    turn of the loop. *)
Fixpoint mod_len_loop (fuel : nat) (KMER MOD_LEN : Z) : option Z :=
  if MOD_LEN <? KMER then
    match fuel with
    | O => None
    | S fuel' => mod_len_loop fuel' KMER (wrap32 (Z.shiftl MOD_LEN 1))
    end
  else Some MOD_LEN.

(** Lines 385-389: [Some (MOD_LEN, MOD_MSK)], or [None] when the loop does
    not stop within 32 turns (it then never stops, see
    [mod_len_loop_stuck]). *)
Definition minimizer_ring (KMER : Z) : option (Z * Z) :=
  match mod_len_loop 32 KMER 1 with
  | None => None
  | Some m =>
      let MOD_LEN := wrap32 (Z.shiftl m 1) in
      Some (MOD_LEN, wrap32 (MOD_LEN - 1))
  end.

(** [for (val = MAX_SUPER; val > 0; val >>= 1) SLEN_BITS += 1;] *)
Equations? slen_loop (val : Z) (SLEN_BITS : Z) : Z by wf (Z.to_nat val) lt :=
  slen_loop val SLEN_BITS with Z_lt_dec 0 val => {
    | left _ := slen_loop (Z.shiftr val 1) (wrap32 (SLEN_BITS + 1));
    | right _ := SLEN_BITS }.
Proof.
  rewrite Z.shiftr_div_pow2 by lia. change (2 ^ 1) with 2.
  apply Z2Nat.inj_lt; try lia.
  - apply Z.div_pos; lia.
  - apply Z.div_lt; lia.
Qed.

(** The sizes fixed by lines 395-407. *)
Record Layout := {
  SMER : Z;
  SLEN_BITS : Z;
  SLEN_BIT_MASK : Z;
  SLEN_BYTES : Z;
  SMER_BYTES : Z;
  SMER_WORD : Z;
  KMER_WORD : Z;
  PLEN_BYTES : Z;
  TMER_WORD : Z
}.

(** [PLEN_BYTES = (SLEN_BITS+8) >> 3] *)
Definition PLEN_BYTES_of (bits : Z) : Z := Z.shiftr (wrap32 (bits + 8)) 3.

Definition layout (KMER MAX_SUPER : Z) : Layout :=
  let SMER := wrap32 (wrap32 (MAX_SUPER + KMER) - 1) in
  let SLEN_BITS := slen_loop MAX_SUPER 0 in
  let SLEN_BIT_MASK :=
    to_uint64 (to_uint32 (to_uint32 (Z.shiftl 1 SLEN_BITS) - 1)) in
  let SLEN_BYTES := Z.shiftr (wrap32 (SLEN_BITS + 7)) 3 in
  let SMER_BYTES := Z.shiftr (wrap32 (wrap32 (SMER * 2) + 7)) 3 in
  {| SMER := SMER;
     SLEN_BITS := SLEN_BITS;
     SLEN_BIT_MASK := SLEN_BIT_MASK;
     SLEN_BYTES := SLEN_BYTES;
     SMER_BYTES := SMER_BYTES;
     SMER_WORD := wrap32 (SMER_BYTES + SLEN_BYTES);
     KMER_WORD := wrap32 (KMER_BYTES_of KMER + 2);
     PLEN_BYTES := PLEN_BYTES_of SLEN_BITS;
     TMER_WORD := wrap32 (KMER_BYTES_of KMER + 2) |}.

End Planner.

Import Planner.

(** ** The process: exit codes, stderr, descriptors and stage calls *)

Module Process.

(** The messages main prints before [exit (1)]. *)
Inductive diagnostic : Type :=
| Not_a_legal_argument (arg : string)
| Macro_error (arg : string)
| Cannot_find_stub (r : string)
| No_hidden_files
| Kmer_size_differs (promer KMER : Z)
| Not_yet_functional
| Usage
| Dot_not_followed_by_slash
| Cannot_open_directory (path : string)
| Sequences_too_short
| Cannot_open_files (nfiles : Z).

(** What the process does to the outside, in the order it does it. *)
Inductive event : Type :=
| Stderr (d : diagnostic)
| Open (path : string) (fd : Z)
| Close (fd : Z)
| Unlink (path : string)
| Setrlimit (cur : Z)
| Split_Kmers (root : string)
| Sorting (pwd root : string)
| Merge_Tables (pwd root : string)
| Merge_Profiles (pwd root : string).

Definition is_stage (e : event) : bool :=
  match e with
  | Split_Kmers _ | Sorting _ _ | Merge_Tables _ _ | Merge_Profiles _ _ => true
  | _ => false
  end.

(** The calls of pipeline stages in a trace, in order. *)
Definition stages (t : list event) : list event := filter is_stage t.

(** The files created by an [open] that succeeded along a trace and not
    unlinked since. *)
Fixpoint files_left (t : list event) (acc : list string) : list string :=
  match t with
  | [] => acc
  | Open path fd :: t' => files_left t' (if fd <? 0 then acc else path :: acc)
  | Unlink path :: t' =>
      files_left t' (filter (fun q => negb (String.eqb q path)) acc)
  | _ :: t' => files_left t' acc
  end.

(** The mutable part of the process: what it has done so far and the
    RLIMIT_NOFILE pair of the kernel. *)
Record World := {
  trace : list event;
  rlim_cur : Z;
  rlim_max : Z
}.

Definition emit (e : event) (w : World) : World :=
  {| trace := (trace w ++ [e])%list; rlim_cur := rlim_cur w; rlim_max := rlim_max w |}.

(** The world of a process that starts. *)
Definition start (cur max : Z) : World :=
  {| trace := []; rlim_cur := cur; rlim_max := max |}.

(** A computation returns, leaves through [exit], or never stops. *)
Inductive outcome (A : Type) : Type :=
| Return (a : A)
| Exit (code : Z)
| Hang.
Arguments Return {A} a.
Arguments Exit {A} code.
Arguments Hang {A}.

Definition Run (A : Type) : Type := World -> outcome A * World.

Definition ret {A} (a : A) : Run A := fun w => (Return a, w).

Definition bind {A B} (c : Run A) (k : A -> Run B) : Run B :=
  fun w =>
    match c w with
    | (Return a, w') => k a w'
    | (Exit code, w') => (Exit code, w')
    | (Hang, w') => (Hang, w')
    end.

Definition exit {A} (code : Z) : Run A := fun w => (Exit code, w).
Definition hang {A} : Run A := fun w => (Hang, w).
Definition event_ (e : event) : Run unit := fun w => (Return tt, emit e w).

(** [fprintf(stderr,...); exit (1);] *)
Definition die {A} (d : diagnostic) : Run A :=
  fun w => (Exit 1, emit (Stderr d) w).

End Process.

Import Process.

Declare Scope run_scope.
Delimit Scope run_scope with run.
Notation "x <- c ;; k" := (bind c (fun x => k))
  (at level 61, c at next level, right associativity) : run_scope.
Notation "c ;;; k" := (bind c (fun _ => k))
  (at level 61, right associativity) : run_scope.

(** ** The stub of a table (FastK.c, lines 204-225) *)

Module Stub.

Inductive byte_order : Type := Little_endian | Big_endian.

Definition byte_of (z : Z) : byte :=
  match Byte.of_N (Z.to_N (z mod 256)) with
  | Some b => b
  | None => x00
  end.

Definition Z_of_byte (b : byte) : Z := Z.of_N (Byte.to_N b).

(** The unsigned number written by a run of bytes, least significant
    byte first. *)
Fixpoint le_value (bs : list byte) : Z :=
  match bs with
  | [] => 0
  | b :: bs' => Z_of_byte b + 256 * le_value bs'
  end.

(** The four bytes an int occupies, and the int found in four bytes, in
    the byte order of the host. *)
Definition int_bytes (o : byte_order) (z : Z) : list byte :=
  let u := to_uint32 z in
  let le := [byte_of u; byte_of (u / 256); byte_of (u / 65536);
             byte_of (u / 16777216)] in
  match o with Little_endian => le | Big_endian => rev le end.

Definition int_of_bytes (o : byte_order) (bs : list byte) : Z :=
  wrap32 (le_value (match o with Little_endian => bs | Big_endian => rev bs end)).

(** [fread(&var,sizeof(int),1,f)]: the bytes the file still has, four at
    most, are copied over the first bytes of [var]; the rest of the file
    is what remains to be read. *)
Definition fread_int (o : byte_order) (var : Z) (f : list byte) : Z * list byte :=
  let got := firstn 4 f in
  (int_of_bytes o (got ++ skipn (List.length got) (int_bytes o var))%list,
   skipn 4 f).

End Stub.

Import Stub.

(** ** The driver (FastK.c, main) *)

Module Driver.

(** The option settings of FastK.c, with the two locals of the option
    loop that outlive one argument: the flag table and [promer]. *)
Record Options := {
  VERBOSE : Z;
  NTHREADS : Z;
  SORT_MEMORY : Z;
  SORT_PATH : string;
  KMER : Z;
  DO_TABLE : Z;
  DO_PROFILE : Z;
  PRO_THREADS : Z;
  PRO_HIDDEN : option string;
  BC_PREFIX : Z;
  OUT_NAME : option string;
  COMPRESS : Z;
  flags : list Z;
  promer : Z
}.

(** Assignment to one setting. *)
Definition set_VERBOSE (v : Z) (o : Options) : Options :=
  {| VERBOSE := v; NTHREADS := NTHREADS o; SORT_MEMORY := SORT_MEMORY o;
     SORT_PATH := SORT_PATH o; KMER := KMER o; DO_TABLE := DO_TABLE o;
     DO_PROFILE := DO_PROFILE o; PRO_THREADS := PRO_THREADS o;
     PRO_HIDDEN := PRO_HIDDEN o; BC_PREFIX := BC_PREFIX o;
     OUT_NAME := OUT_NAME o; COMPRESS := COMPRESS o; flags := flags o;
     promer := promer o |}.

Definition set_NTHREADS (v : Z) (o : Options) : Options :=
  {| VERBOSE := VERBOSE o; NTHREADS := v; SORT_MEMORY := SORT_MEMORY o;
     SORT_PATH := SORT_PATH o; KMER := KMER o; DO_TABLE := DO_TABLE o;
     DO_PROFILE := DO_PROFILE o; PRO_THREADS := PRO_THREADS o;
     PRO_HIDDEN := PRO_HIDDEN o; BC_PREFIX := BC_PREFIX o;
     OUT_NAME := OUT_NAME o; COMPRESS := COMPRESS o; flags := flags o;
     promer := promer o |}.

Definition set_SORT_MEMORY (v : Z) (o : Options) : Options :=
  {| VERBOSE := VERBOSE o; NTHREADS := NTHREADS o; SORT_MEMORY := v;
     SORT_PATH := SORT_PATH o; KMER := KMER o; DO_TABLE := DO_TABLE o;
     DO_PROFILE := DO_PROFILE o; PRO_THREADS := PRO_THREADS o;
     PRO_HIDDEN := PRO_HIDDEN o; BC_PREFIX := BC_PREFIX o;
     OUT_NAME := OUT_NAME o; COMPRESS := COMPRESS o; flags := flags o;
     promer := promer o |}.

Definition set_SORT_PATH (v : string) (o : Options) : Options :=
  {| VERBOSE := VERBOSE o; NTHREADS := NTHREADS o;
     SORT_MEMORY := SORT_MEMORY o; SORT_PATH := v; KMER := KMER o;
     DO_TABLE := DO_TABLE o; DO_PROFILE := DO_PROFILE o;
     PRO_THREADS := PRO_THREADS o; PRO_HIDDEN := PRO_HIDDEN o;
     BC_PREFIX := BC_PREFIX o; OUT_NAME := OUT_NAME o;
     COMPRESS := COMPRESS o; flags := flags o; promer := promer o |}.

Definition set_KMER (v : Z) (o : Options) : Options :=
  {| VERBOSE := VERBOSE o; NTHREADS := NTHREADS o;
     SORT_MEMORY := SORT_MEMORY o; SORT_PATH := SORT_PATH o; KMER := v;
     DO_TABLE := DO_TABLE o; DO_PROFILE := DO_PROFILE o;
     PRO_THREADS := PRO_THREADS o; PRO_HIDDEN := PRO_HIDDEN o;
     BC_PREFIX := BC_PREFIX o; OUT_NAME := OUT_NAME o;
     COMPRESS := COMPRESS o; flags := flags o; promer := promer o |}.

Definition set_DO_TABLE (v : Z) (o : Options) : Options :=
  {| VERBOSE := VERBOSE o; NTHREADS := NTHREADS o;
     SORT_MEMORY := SORT_MEMORY o; SORT_PATH := SORT_PATH o; KMER := KMER o;
     DO_TABLE := v; DO_PROFILE := DO_PROFILE o;
     PRO_THREADS := PRO_THREADS o; PRO_HIDDEN := PRO_HIDDEN o;
     BC_PREFIX := BC_PREFIX o; OUT_NAME := OUT_NAME o;
     COMPRESS := COMPRESS o; flags := flags o; promer := promer o |}.

Definition set_DO_PROFILE (v : Z) (o : Options) : Options :=
  {| VERBOSE := VERBOSE o; NTHREADS := NTHREADS o;
     SORT_MEMORY := SORT_MEMORY o; SORT_PATH := SORT_PATH o; KMER := KMER o;
     DO_TABLE := DO_TABLE o; DO_PROFILE := v; PRO_THREADS := PRO_THREADS o;
     PRO_HIDDEN := PRO_HIDDEN o; BC_PREFIX := BC_PREFIX o;
     OUT_NAME := OUT_NAME o; COMPRESS := COMPRESS o; flags := flags o;
     promer := promer o |}.

Definition set_PRO_THREADS (v : Z) (o : Options) : Options :=
  {| VERBOSE := VERBOSE o; NTHREADS := NTHREADS o;
     SORT_MEMORY := SORT_MEMORY o; SORT_PATH := SORT_PATH o; KMER := KMER o;
     DO_TABLE := DO_TABLE o; DO_PROFILE := DO_PROFILE o; PRO_THREADS := v;
     PRO_HIDDEN := PRO_HIDDEN o; BC_PREFIX := BC_PREFIX o;
     OUT_NAME := OUT_NAME o; COMPRESS := COMPRESS o; flags := flags o;
     promer := promer o |}.

Definition set_PRO_HIDDEN (v : option string) (o : Options) : Options :=
  {| VERBOSE := VERBOSE o; NTHREADS := NTHREADS o;
     SORT_MEMORY := SORT_MEMORY o; SORT_PATH := SORT_PATH o; KMER := KMER o;
     DO_TABLE := DO_TABLE o; DO_PROFILE := DO_PROFILE o;
     PRO_THREADS := PRO_THREADS o; PRO_HIDDEN := v;
     BC_PREFIX := BC_PREFIX o; OUT_NAME := OUT_NAME o;
     COMPRESS := COMPRESS o; flags := flags o; promer := promer o |}.

Definition set_BC_PREFIX (v : Z) (o : Options) : Options :=
  {| VERBOSE := VERBOSE o; NTHREADS := NTHREADS o;
     SORT_MEMORY := SORT_MEMORY o; SORT_PATH := SORT_PATH o; KMER := KMER o;
     DO_TABLE := DO_TABLE o; DO_PROFILE := DO_PROFILE o;
     PRO_THREADS := PRO_THREADS o; PRO_HIDDEN := PRO_HIDDEN o;
     BC_PREFIX := v; OUT_NAME := OUT_NAME o; COMPRESS := COMPRESS o;
     flags := flags o; promer := promer o |}.

Definition set_OUT_NAME (v : option string) (o : Options) : Options :=
  {| VERBOSE := VERBOSE o; NTHREADS := NTHREADS o;
     SORT_MEMORY := SORT_MEMORY o; SORT_PATH := SORT_PATH o; KMER := KMER o;
     DO_TABLE := DO_TABLE o; DO_PROFILE := DO_PROFILE o;
     PRO_THREADS := PRO_THREADS o; PRO_HIDDEN := PRO_HIDDEN o;
     BC_PREFIX := BC_PREFIX o; OUT_NAME := v; COMPRESS := COMPRESS o;
     flags := flags o; promer := promer o |}.

Definition set_COMPRESS (v : Z) (o : Options) : Options :=
  {| VERBOSE := VERBOSE o; NTHREADS := NTHREADS o;
     SORT_MEMORY := SORT_MEMORY o; SORT_PATH := SORT_PATH o; KMER := KMER o;
     DO_TABLE := DO_TABLE o; DO_PROFILE := DO_PROFILE o;
     PRO_THREADS := PRO_THREADS o; PRO_HIDDEN := PRO_HIDDEN o;
     BC_PREFIX := BC_PREFIX o; OUT_NAME := OUT_NAME o; COMPRESS := v;
     flags := flags o; promer := promer o |}.

Definition set_flags (v : list Z) (o : Options) : Options :=
  {| VERBOSE := VERBOSE o; NTHREADS := NTHREADS o;
     SORT_MEMORY := SORT_MEMORY o; SORT_PATH := SORT_PATH o; KMER := KMER o;
     DO_TABLE := DO_TABLE o; DO_PROFILE := DO_PROFILE o;
     PRO_THREADS := PRO_THREADS o; PRO_HIDDEN := PRO_HIDDEN o;
     BC_PREFIX := BC_PREFIX o; OUT_NAME := OUT_NAME o;
     COMPRESS := COMPRESS o; flags := v; promer := promer o |}.

Definition set_promer (v : Z) (o : Options) : Options :=
  {| VERBOSE := VERBOSE o; NTHREADS := NTHREADS o;
     SORT_MEMORY := SORT_MEMORY o; SORT_PATH := SORT_PATH o; KMER := KMER o;
     DO_TABLE := DO_TABLE o; DO_PROFILE := DO_PROFILE o;
     PRO_THREADS := PRO_THREADS o; PRO_HIDDEN := PRO_HIDDEN o;
     BC_PREFIX := BC_PREFIX o; OUT_NAME := OUT_NAME o;
     COMPRESS := COMPRESS o; flags := flags o; promer := v |}.

(** What main takes from outside FastK.c: the argument macros and path
    helpers of gene_core.h, the C library, the file system as the process
    finds it, and the input and scheme modules.  A macro that prints and
    exits yields [None]. *)
Record Env := {
  Input_Partition : Type;
  order : byte_order;
  (** what the uninitialised [promer] holds *)
  stack_promer : Z;
  (** the flag table as ARG_INIT leaves it *)
  ARG_INIT : list Z;
  ARG_FLAGS : string -> string -> list Z -> option (list Z);
  ARG_POSITIVE : string -> string -> option Z;
  ARG_NON_NEGATIVE : string -> string -> option Z;
  PathTo : string -> string;
  Root : string -> option string -> string;
  Catenate : string -> string -> string -> string -> string;
  (** the content of a file that opens for reading *)
  fopen : string -> option (list byte);
  getcwd : string;
  opendir : string -> bool;
  Partition_Input : list string -> Input_Partition;
  First_Root : Input_Partition -> string;
  First_Pwd : Input_Partition -> string;
  Get_First_Block : Input_Partition -> Z -> DATA_BLOCK;
  Determine_Scheme : DATA_BLOCK -> Z;
  (** the descriptor [open(".xxx",...)] returns *)
  open_xxx : Z
}.

Local Open Scope run_scope.

(** The character that ends a C string. *)
Definition NUL : ascii := zero.

(** [s[n]], for a C string [s]. *)
Definition at_ (s : string) (n : nat) : ascii :=
  match String.get n s with
  | Some c => c
  | None => NUL
  end.

(** [s+n], for a C string [s] of [n] characters at least. *)
Fixpoint from (n : nat) (s : string) : string :=
  match n, s with
  | O, _ => s
  | S n', String _ s' => from n' s'
  | S _, EmptyString => EmptyString
  end.

(** [isalpha] of ctype.h, C locale. *)
Definition isalpha (c : ascii) : bool :=
  let n := N_of_ascii c in
  ((65 <=? n) && (n <=? 90) || (97 <=? n) && (n <=? 122))%N.

(** [flags['c']] *)
Definition flag (fl : list Z) (c : ascii) : Z := nth (nat_of_ascii c) fl 0.

(** The outcome of an argument macro of gene_core.h: the value it
    stores, or its message and [exit (1)]. *)
Definition macro {A} (arg : string) (r : option A) : Run A :=
  match r with
  | Some a => ret a
  | None => die (Macro_error arg)
  end.

(** Lines 167-178. *)
Definition defaults (env : Env) : Options :=
  {| VERBOSE := 0;
     NTHREADS := 4;
     SORT_MEMORY := 12000000000;
     SORT_PATH := "/tmp";
     KMER := 40;
     DO_TABLE := 0;
     DO_PROFILE := 0;
     PRO_THREADS := 0;
     PRO_HIDDEN := None;
     BC_PREFIX := 0;
     OUT_NAME := None;
     COMPRESS := 0;
     flags := ARG_INIT env;
     promer := stack_promer env |}.

Definition arg_flags (env : Env) (arg : string) (o : Options) : Run Options :=
  fl <- macro arg (ARG_FLAGS env "vcpt" arg (flags o)) ;;
  ret (set_flags fl o).

(** Lines 204-225, for [-p:<table>]. *)
Definition stub_arg (env : Env) (table : string) (o : Options) : Run Options :=
  let d := PathTo env table in
  let r := Root env table (Some ".ktab"%string) in
  let o := set_PRO_HIDDEN (Some (Catenate env d "/." r "")) o in
  match fopen env (Catenate env d "/" r ".ktab") with
  | None => die (Cannot_find_stub r)
  | Some f =>
      let (k, f') := fread_int (order env) (promer o) f in
      let (n, _) := fread_int (order env) (PRO_THREADS o) f' in
      let o := set_PRO_THREADS n (set_promer k o) in
      if n <=? 0 then die No_hidden_files
      else ret (set_DO_PROFILE 1 o)
  end.

(** The switch on [argv[i][1]] (lines 183-261) for an argument that
    starts with a dash. *)
Definition option_arg (env : Env) (arg : string) (o : Options) : Run Options :=
  let c := at_ arg 1 in
  if (c =? "b")%char then
    if negb (at_ arg 2 =? "c")%char then die (Not_a_legal_argument arg)
    else
      v <- macro arg (ARG_NON_NEGATIVE env (from 1 arg) "Bar code prefiex") ;;
      ret (set_BC_PREFIX v o)
  else if (c =? "k")%char then
    v <- macro arg (ARG_POSITIVE env arg "K-mer length") ;;
    ret (set_KMER v o)
  else if (c =? "p")%char then
    if negb (at_ arg 2 =? ":")%char then arg_flags env arg o
    else stub_arg env (from 3 arg) o
  else if (c =? "t")%char then
    if (at_ arg 2 =? NUL)%char || isalpha (at_ arg 2) then arg_flags env arg o
    else
      v <- macro arg (ARG_POSITIVE env arg "Cutoff for k-mer table") ;;
      ret (set_DO_TABLE v o)
  else if (c =? "M")%char then
    memory <- macro arg (ARG_POSITIVE env arg "GB of memory for sorting step") ;;
    ret (set_SORT_MEMORY (wrap64 (memory * 1000000000)) o)
  else if (c =? "N")%char then ret (set_OUT_NAME (Some (from 2 arg)) o)
  else if (c =? "P")%char then ret (set_SORT_PATH (from 2 arg) o)
  else if (c =? "T")%char then
    v <- macro arg (ARG_POSITIVE env arg "Number of threads") ;;
    ret (set_NTHREADS v o)
  else arg_flags env arg o.

(** [argv[i][0] == '-'] *)
Definition is_option (arg : string) : bool := (at_ arg 0 =? "-")%char.

(** The loop over argv[1..] (lines 180-264): options update the settings,
    the other arguments are kept, in order, as the sources. *)
Fixpoint option_loop (env : Env) (args : list string) (o : Options)
    (sources : list string) : Run (Options * list string) :=
  match args with
  | [] => ret (o, sources)
  | arg :: args' =>
      if is_option arg then
        o' <- option_arg env arg o ;;
        option_loop env args' o' sources
      else option_loop env args' o (sources ++ [arg])%list
  end.

(** Lines 266-271. *)
Definition apply_flags (o : Options) : Options :=
  let o := set_VERBOSE (flag (flags o) "v") o in
  let o := set_COMPRESS (flag (flags o) "c") o in
  let o := if flag (flags o) "t" =? 0 then o else set_DO_TABLE 4 o in
  if flag (flags o) "p" =? 0 then o else set_DO_PROFILE 1 o.

(** Lines 273-281. *)
Definition check_stub (o : Options) : Run unit :=
  if 0 <? PRO_THREADS o then
    if promer o =? KMER o then die Not_yet_functional
    else die (Kmer_size_differs (promer o) (KMER o))
  else ret tt.

(** Lines 160-301: the settings and the sources, [argc] being one more
    than the number of sources. *)
Definition read_options (env : Env) (args : list string)
    : Run (Options * list string) :=
  p <- option_loop env args (defaults env) [] ;;
  let o := apply_flags (fst p) in
  check_stub o ;;;
  if wrap32 (1 + Z.of_nat (List.length (snd p))) <? 2 then die Usage
  else ret (o, snd p).

(** Lines 305-333. *)
Definition scratch_path (env : Env) (SORT_PATH : string) : Run string :=
  path <-
    (if negb (at_ SORT_PATH 0 =? "/")%char then
       if (at_ SORT_PATH 0 =? ".")%char then
         if (at_ SORT_PATH 1 =? "/")%char then
           ret (Catenate env (getcwd env) (from 1 SORT_PATH) "" "")
         else if (at_ SORT_PATH 1 =? NUL)%char then ret (getcwd env)
         else die Dot_not_followed_by_slash
       else ret (Catenate env (getcwd env) "/" SORT_PATH "")
     else ret SORT_PATH) ;;
  if opendir env path then ret path else die (Cannot_open_directory path).

(** Every global size that main computes. *)
Record Plan := {
  KMER_BYTES : Z;
  NPARTS : Z;
  MOD_LEN : Z;
  MOD_MSK : Z;
  MAX_SUPER : Z;
  sizes : Layout
}.

(** Lines 359-407. *)
Definition plan_sizes (env : Env) (o : Options) (block : DATA_BLOCK) : Run Plan :=
  if too_short (KMER o) block then die Sequences_too_short
  else
    match minimizer_ring (KMER o) with
    | None => hang
    | Some (len, msk) =>
        let sup := Determine_Scheme env block in
        ret {| KMER_BYTES := KMER_BYTES_of (KMER o);
               NPARTS := NPARTS_of (projected (KMER o) block) (SORT_MEMORY o);
               MOD_LEN := len;
               MOD_MSK := msk;
               MAX_SUPER := sup;
               sizes := layout (KMER o) sup |}
    end.

(** [nfiles = (NPARTS+2)*NTHREADS + tid], an int expression stored in a
    uint64. *)
Definition nfiles_of (NPARTS NTHREADS tid : Z) : Z :=
  to_uint64 (wrap32 (wrap32 (wrap32 (NPARTS + 2) * NTHREADS) + tid)).

(** Lines 412-428. *)
Definition descriptor_guard (env : Env) (NPARTS NTHREADS : Z) : Run unit :=
  let tid := open_xxx env in
  event_ (Open ".xxx" tid) ;;;
  event_ (Close tid) ;;;
  event_ (Unlink ".xxx") ;;;
  let nfiles := nfiles_of NPARTS NTHREADS tid in
  fun w =>
    if rlim_max w <? nfiles then die (Cannot_open_files nfiles) w
    else
      (Return tt,
       {| trace := (trace w ++ [Setrlimit nfiles])%list;
          rlim_cur := nfiles;
          rlim_max := rlim_max w |}).

(** Lines 430-457, DEVELOPER not defined. *)
Definition run_stages (o : Options) (pwd root : string) : Run unit :=
  event_ (Split_Kmers root) ;;;
  event_ (Sorting pwd root) ;;;
  (if 0 <? DO_TABLE o then event_ (Merge_Tables pwd root) else ret tt) ;;;
  (if 0 <? DO_PROFILE o then event_ (Merge_Profiles pwd root) else ret tt).

(** What main holds when it reaches line 359. *)
Record Sampled := {
  opts : Options;
  root : string;
  pwd : string;
  block : DATA_BLOCK
}.

(** Lines 160-357. *)
Definition sample (env : Env) (args : list string) : Run Sampled :=
  p <- read_options env args ;;
  path <- scratch_path env (SORT_PATH (fst p)) ;;
  let o := set_SORT_PATH path (fst p) in
  let io := Partition_Input env (snd p) in
  let names :=
    match OUT_NAME o with
    | None => (First_Root env io, First_Pwd env io)
    | Some name => (Root env name None, PathTo env name)
    end in
  ret {| opts := o;
         root := fst names;
         pwd := snd names;
         block := Get_First_Block env io 1000000000 |}.

(** Lines 359-428. *)
Definition prepare (env : Env) (s : Sampled) : Run Plan :=
  plan <- plan_sizes env (opts s) (block s) ;;
  descriptor_guard env (NPARTS plan) (NTHREADS (opts s)) ;;;
  ret plan.

(** [main], from the arguments after [argv[0]] to [exit (0)]. *)
Definition main (env : Env) (args : list string) : Run unit :=
  s <- sample env args ;;
  prepare env s ;;;
  run_stages (opts s) (pwd s) (root s) ;;;
  exit 0.

End Driver.

Import Driver.

(** ** Vocabulary of the statements *)

Definition power_of_two (L : Z) : Prop := exists n, 0 <= n /\ L = 2 ^ n.

(** [L] is the smallest power of two strictly greater than [K]. *)
Definition smallest_power_of_two_above (K L : Z) : Prop :=
  power_of_two L /\ K < L /\
  forall L', power_of_two L' -> K < L' -> L <= L'.

(** [L] is the smallest power of two that is at least [K]. *)
Definition smallest_power_of_two_from (K L : Z) : Prop :=
  power_of_two L /\ K <= L /\
  forall L', power_of_two L' -> K <= L' -> L <= L'.

(** The ceiling of [a / b]. *)
Definition cdiv (a b : Z) : Z := - ((- a) / b).

(** A computation is [quiet] when it returns in the world it was started
    in, or dies with one message, or, if [may_hang], hangs. *)
Definition quiet (may_hang : bool) {A} (c : Run A) : Prop :=
  forall w,
    (exists a, c w = (Return a, w)) \/
    (exists d, c w = (Exit 1, emit (Stderr d) w)) \/
    (may_hang = true /\ c w = (Hang, w)).

(** The world after the events [es]. *)
Definition after (es : list event) (w : World) : World :=
  {| trace := (trace w ++ es)%list; rlim_cur := rlim_cur w; rlim_max := rlim_max w |}.

(** What the guard does with the throwaway file. *)
Definition probe (tid : Z) : list event :=
  [Open ".xxx" tid; Close tid; Unlink ".xxx"].

(** The stage calls of a run with the settings [o]. *)
Definition stage_calls (o : Options) (pwd root : string) : list event :=
  ([Split_Kmers root; Sorting pwd root]
   ++ (if 0 <? DO_TABLE o then [Merge_Tables pwd root] else [])
   ++ (if 0 <? DO_PROFILE o then [Merge_Profiles pwd root] else []))%list.

(** [-p:<table>] *)
Definition stub_option (table : string) : string := ("-p:" ++ table)%string.

Definition is_stub_option (arg : string) : bool :=
  is_option arg && (at_ arg 1 =? "p")%char && (at_ arg 2 =? ":")%char.

(** The name under which the stub of [table] is opened. *)
Definition stub_file (env : Env) (table : string) : string :=
  Catenate env (PathTo env table) "/" (Root env table (Some ".ktab"%string)) ".ktab".

(** The settings once the stub of [table] gave the k-mer length [k] and
    [n] hidden files. *)
Definition with_stub (env : Env) (table : string) (k n : Z) (o : Options) : Options :=
  set_DO_PROFILE 1
    (set_PRO_THREADS n
       (set_promer k
          (set_PRO_HIDDEN
             (Some (Catenate env (PathTo env table) "/."
                      (Root env table (Some ".ktab"%string)) "")) o))).

(** ** A concrete environment

    One instance of [Env] on which main can be run: decimal option
    values, path helpers on plain names, a file system given by its stub
    files, a first block and a scheme length chosen by the caller. *)

Module Sample_env.

Definition digit (c : ascii) : option Z :=
  let n := Z.of_N (N_of_ascii c) in
  if (48 <=? n) && (n <=? 57) then Some (n - 48) else None.

Fixpoint decimal (s : string) (acc : Z) : option Z :=
  match s with
  | EmptyString => Some acc
  | String c s' =>
      match digit c with
      | Some d => decimal s' (10 * acc + d)
      | None => None
      end
  end.

(** The number written from the third character of an argument on. *)
Definition number_of (arg : string) : option Z :=
  match substring 2 (String.length arg) arg with
  | EmptyString => None
  | digits => decimal digits 0
  end.

Definition positive_number (arg name : string) : option Z :=
  match number_of arg with
  | Some v => if 0 <? v then Some v else None
  | None => None
  end.

Definition non_negative_number (arg name : string) : option Z :=
  match number_of arg with
  | Some v => if 0 <=? v then Some v else None
  | None => None
  end.

Fixpoint member (c : ascii) (set : string) : bool :=
  match set with
  | EmptyString => false
  | String d set' => Ascii.eqb c d || member c set'
  end.

Fixpoint store (n : nat) (v : Z) (l : list Z) : list Z :=
  match l, n with
  | [], _ => []
  | _ :: l', O => v :: l'
  | x :: l', S n' => x :: store n' v l'
  end.

Fixpoint raise_flags (set chars : string) (fl : list Z) : option (list Z) :=
  match chars with
  | EmptyString => Some fl
  | String c chars' =>
      if member c set then raise_flags set chars' (store (nat_of_ascii c) 1 fl)
      else None
  end.

Definition flags_of (set arg : string) (fl : list Z) : option (list Z) :=
  raise_flags set (substring 1 (String.length arg) arg) fl.

Definition env_of (block : DATA_BLOCK) (scheme : Z)
    (files : string -> option (list byte)) (tid : Z) : Env :=
  {| Input_Partition := list string;
     order := Little_endian;
     stack_promer := 0;
     ARG_INIT := repeat 0 128;
     ARG_FLAGS := flags_of;
     ARG_POSITIVE := positive_number;
     ARG_NON_NEGATIVE := non_negative_number;
     PathTo := fun _ => "."%string;
     Root := fun name _ => name;
     Catenate := fun a b c d => (a ++ b ++ c ++ d)%string;
     fopen := files;
     getcwd := "/work"%string;
     opendir := fun _ => true;
     Partition_Input := fun sources => sources;
     First_Root := fun _ => "reads"%string;
     First_Pwd := fun _ => "."%string;
     Get_First_Block := fun _ _ => block;
     Determine_Scheme := fun _ => scheme;
     open_xxx := tid |}.

Definition no_files : string -> option (list byte) := fun _ => None.

(** A block of [n] reads and [t] bases whose file is [r] times the size
    of the block. *)
Definition block_of (t n r : Z) : DATA_BLOCK :=
  {| totlen := t; nreads := n; ratio_product := fun gsize rsize => gsize * r * rsize |}.


(** A file system with the stub of one table: its k-mer length is 31 and
    it has 4 hidden files. *)
Definition one_stub (path : string) : option (list byte) :=
  if String.eqb path "./small.ktab"
  then Some [x1f; x00; x00; x00; x04; x00; x00; x00; xaa]
  else None.

(** A file system with the stub of one table built for k = 40, with 4
    hidden files. *)
Definition matching_stub (path : string) : option (list byte) :=
  if String.eqb path "./reads.ktab"
  then Some [x28; x00; x00; x00; x04; x00; x00; x00]
  else None.

End Sample_env.

Import Sample_env.

(** ** The resource report (FastK.c, startTime and timeTo, lines 90-151) *)

Module Timing.

(** [struct timeval], [struct timespec] and the fields of
    [struct rusage] that timeTo reads; the fields are longs. *)
Record timeval := { tv_sec : Z; tv_usec : Z }.

Record timespec := { ts_sec : Z; tv_nsec : Z }.

Record rusage := { ru_utime : timeval; ru_stime : timeval; ru_maxrss : Z }.

(** The statics [Itime] and [Iwall]. *)
Record Started := { Itime : rusage; Iwall : timespec }.

(** [startTime]: the readings of [getrusage] and [clock_gettime] are
    kept. *)
Definition startTime (now : rusage) (today : timespec) : Started :=
  {| Itime := now; Iwall := today |}.

(** Lines 111-116 (and 122-127, 133-138): the seconds and the
    micro-seconds between two readings, with the borrow.  Differences of
    longs are stored in ints. *)
Definition elapsed (sec1 sec0 mic1 mic0 : Z) : Z * Z :=
  let secs := wrap32 (wrap64 (sec1 - sec0)) in
  let mics := wrap32 (wrap64 (mic1 - mic0)) in
  if mics <? 0 then (wrap32 (secs - 1), wrap32 (mics + 1000000))
  else (secs, mics).

(** What one [fprintf] of a time puts out: ["%d:%02d.%03d"] with the
    minutes, the seconds and the milli-seconds, or ["%d.%03d"] with the
    seconds and the milli-seconds. *)
Inductive shown : Type :=
| Minutes (m s ms : Z)
| Seconds (s ms : Z).

(** Lines 117-120 (and 128-131, 139-142), with C's division and
    remainder. *)
Definition show (t : Z * Z) : shown :=
  let (secs, mics) := t in
  if 60 <=? secs
  then Minutes (Z.quot secs 60) (Z.rem secs 60) (Z.quot mics 1000)
  else Seconds secs (Z.quot mics 1000).

(** The report of timeTo: user, system and wall-clock time and the
    number handed to Print_Number before ["MB"].  The percentage of line
    144 is a floating-point number and is left out. *)
Record Report := { user : shown; system : shown; wall : shown; mem : Z }.

Definition timeTo (st : Started) (now : rusage) (today : timespec) : Report :=
  {| user := show (elapsed (tv_sec (ru_utime now)) (tv_sec (ru_utime (Itime st)))
                     (tv_usec (ru_utime now)) (tv_usec (ru_utime (Itime st))));
     system := show (elapsed (tv_sec (ru_stime now)) (tv_sec (ru_stime (Itime st)))
                       (tv_usec (ru_stime now)) (tv_usec (ru_stime (Itime st))));
     wall := show (elapsed (ts_sec today) (ts_sec (Iwall st))
                     (Z.quot (tv_nsec today) 1000)
                     (Z.quot (tv_nsec (Iwall st)) 1000));
     mem := Z.quot (wrap64 (ru_maxrss now - ru_maxrss (Itime st))) 1000000 |}.

End Timing.

Import Timing.

(** ** More vocabulary *)

(** The milli-seconds that a printed time stands for. *)
Definition shown_ms (t : shown) : Z :=
  match t with
  | Minutes m s ms => m * 60000 + s * 1000 + ms
  | Seconds s ms => s * 1000 + ms
  end.

(** The fields of a printed time fill their formats: two digits of
    seconds after at least one minute, three digits of milli-seconds. *)
Definition shown_in_format (t : shown) : Prop :=
  match t with
  | Minutes m s ms => 1 <= m /\ 0 <= s < 60 /\ 0 <= ms < 1000
  | Seconds s ms => 0 <= s < 60 /\ 0 <= ms < 1000
  end.

(** A time of day in micro-seconds. *)
Definition micro_seconds (t : timeval) : Z := tv_sec t * 1000000 + tv_usec t.

(** Two readings of a clock, seconds and micro-seconds, the second one
    not before the first and less than 2^31 seconds after it. *)
Definition later (sec1 sec0 mic1 mic0 : Z) : Prop :=
  0 <= mic0 < 1000000 /\ 0 <= mic1 < 1000000 /\
  sec0 * 1000000 + mic0 <= sec1 * 1000000 + mic1 /\
  sec1 - sec0 < 2 ^ 31.

(** The micro-seconds from the first reading to the second. *)
Definition span (sec1 sec0 mic1 mic0 : Z) : Z :=
  (sec1 * 1000000 + mic1) - (sec0 * 1000000 + mic0).

(** The arguments that do not start with a dash. *)
Definition sources_of (args : list string) : list string :=
  filter (fun a => negb (is_option a)) args.

(** Some argument is an option with the letter [c]. *)
Definition has_option (c : ascii) (args : list string) : bool :=
  existsb (fun a => is_option a && (at_ a 1 =? c)%char) args.

(** What gene_core.h promises of the two number macros: ARG_POSITIVE
    stores a positive int, ARG_NON_NEGATIVE an int that is not negative. *)
Definition checked_macros (env : Env) : Prop :=
  (forall arg name v, ARG_POSITIVE env arg name = Some v -> 0 < v < 2 ^ 31) /\
  (forall arg name v, ARG_NON_NEGATIVE env arg name = Some v -> 0 <= v < 2 ^ 31).

(** [Catenate] puts its four strings one after the other. *)
Definition catenates (env : Env) : Prop :=
  forall a b c d, Catenate env a b c d = (a ++ b ++ c ++ d)%string.

(** The settings have the ranges that the number macros give them. *)
Definition settings_in_range (o : Options) : Prop :=
  0 < KMER o < 2 ^ 31 /\ 0 < NTHREADS o < 2 ^ 31 /\
  0 <= DO_TABLE o < 2 ^ 31 /\ 0 <= BC_PREFIX o < 2 ^ 31 /\
  exists memory, 0 < memory < 2 ^ 31 /\ SORT_MEMORY o = memory * 1000000000.

(** ** A concrete environment with int macros *)

Module Int_env.

Definition int_number (r : option Z) : option Z :=
  match r with
  | Some v => if v <? 2 ^ 31 then Some v else None
  | None => None
  end.

(** [e] with number macros that refuse what does not fit an int. *)
Definition with_int_macros (e : Env) : Env :=
  {| Input_Partition := Input_Partition e;
     order := order e;
     stack_promer := stack_promer e;
     ARG_INIT := ARG_INIT e;
     ARG_FLAGS := ARG_FLAGS e;
     ARG_POSITIVE := fun arg name => int_number (ARG_POSITIVE e arg name);
     ARG_NON_NEGATIVE := fun arg name => int_number (ARG_NON_NEGATIVE e arg name);
     PathTo := PathTo e;
     Root := Root e;
     Catenate := Catenate e;
     fopen := fopen e;
     getcwd := getcwd e;
     opendir := opendir e;
     Partition_Input := Partition_Input e;
     First_Root := First_Root e;
     First_Pwd := First_Pwd e;
     Get_First_Block := Get_First_Block e;
     Determine_Scheme := Determine_Scheme e;
     open_xxx := open_xxx e |}.

(** A file system in which no directory opens. *)
Definition closed_directories (e : Env) : Env :=
  {| Input_Partition := Input_Partition e;
     order := order e;
     stack_promer := stack_promer e;
     ARG_INIT := ARG_INIT e;
     ARG_FLAGS := ARG_FLAGS e;
     ARG_POSITIVE := ARG_POSITIVE e;
     ARG_NON_NEGATIVE := ARG_NON_NEGATIVE e;
     PathTo := PathTo e;
     Root := Root e;
     Catenate := Catenate e;
     fopen := fopen e;
     getcwd := getcwd e;
     opendir := fun _ => false;
     Partition_Input := Partition_Input e;
     First_Root := First_Root e;
     First_Pwd := First_Pwd e;
     Get_First_Block := Get_First_Block e;
     Determine_Scheme := Determine_Scheme e;
     open_xxx := open_xxx e |}.

(** A file system with one stub, which is empty. *)
Definition empty_stub (path : string) : option (list byte) :=
  if String.eqb path "./small.ktab" then Some [] else None.

End Int_env.

Import Int_env.

(** * Properties *)

(** ** Machine integers and ceilings *)

Section Arithmetic.

Lemma wrap32_id z : int_range z -> wrap32 z = z.
Proof.
  unfold int_range, wrap32, wrap. intros H.
  change (2 ^ (32 - 1)) with 2147483648. change (2 ^ 32) with 4294967296.
  change (2 ^ 31) with 2147483648 in H.
  rewrite Z.mod_small; lia.
Qed.

Lemma wrap64_id z : int64_range z -> wrap64 z = z.
Proof.
  unfold int64_range, wrap64, wrap. intros H.
  change (2 ^ (64 - 1)) with 9223372036854775808.
  change (2 ^ 64) with 18446744073709551616.
  change (2 ^ 63) with 9223372036854775808 in H.
  rewrite Z.mod_small; lia.
Qed.

Lemma to_uint64_id z : 0 <= z < 2 ^ 64 -> to_uint64 z = z.
Proof. intros H. unfold to_uint64. apply Z.mod_small. exact H. Qed.

Lemma to_uint32_id z : 0 <= z < 2 ^ 32 -> to_uint32 z = z.
Proof. intros H. unfold to_uint32. apply Z.mod_small. exact H. Qed.




Lemma wrap32_to_uint32 k : int_range k -> wrap32 (to_uint32 k) = k.
Proof.
  intros Hk. unfold to_uint32.
  pose proof (Z.div_mod k (2 ^ 32) ltac:(change (2 ^ 32) with 4294967296; lia)) as D.
  replace (k mod 2 ^ 32) with (k + (- (k / 2 ^ 32)) * 2 ^ 32) by lia.
  unfold wrap32, wrap. change (2 ^ (32 - 1)) with 2147483648.
  replace (k + - (k / 2 ^ 32) * 2 ^ 32 + 2147483648)
    with (k + 2147483648 + - (k / 2 ^ 32) * 2 ^ 32) by lia.
  rewrite Z.mod_add by (change (2 ^ 32) with 4294967296; lia).
  apply wrap32_id. exact Hk.
Qed.

Lemma cdiv_spec a b : 0 < b -> b * (cdiv a b - 1) < a <= b * cdiv a b.
Proof.
  intros Hb. unfold cdiv.
  pose proof (Z.div_mod (- a) b ltac:(lia)).
  pose proof (Z.mod_pos_bound (- a) b Hb). nia.
Qed.

Lemma cdiv_unique a b q : 0 < b -> b * (q - 1) < a <= b * q -> cdiv a b = q.
Proof.
  intros Hb H. pose proof (cdiv_spec a b Hb). nia.
Qed.

End Arithmetic.

(** ** Some runs *)

Example fread_40 :
  fread_int Little_endian 7 [x28; x00; x00; x00; x04; x00; x00; x00]
  = (40, [x04; x00; x00; x00]).
Proof. reflexivity. Qed.

Example fread_short : fread_int Big_endian 258 [xff] = (-16776958, []).
Proof. reflexivity. Qed.

Example run_plain :
  main (env_of (block_of 1000000000 1000 10) 25 no_files 3)
       ["-k40"; "-t"; "reads.fa"]%string (start 256 1024)
  = (Exit 0,
     {| trace := [Open ".xxx" 3; Close 3; Unlink ".xxx"; Setrlimit 51;
                  Split_Kmers "reads"; Sorting "." "reads";
                  Merge_Tables "." "reads"];
        rlim_cur := 51; rlim_max := 1024 |}).
Proof. vm_compute. reflexivity. Qed.

(** ** The minimizer ring (lines 385-389) *)

Section Ring.

Lemma shiftl_pow2 i : 0 <= i -> Z.shiftl (2 ^ i) 1 = 2 ^ (i + 1).
Proof.
  intros Hi. rewrite Z.shiftl_mul_pow2 by lia.
  rewrite Z.pow_add_r by lia. reflexivity.
Qed.

Lemma pow2_int_range i : 0 <= i <= 30 -> int_range (2 ^ i).
Proof.
  intros Hi. unfold int_range.
  assert (0 < 2 ^ i) by (apply Z.pow_pos_nonneg; lia).
  assert (2 ^ i <= 2 ^ 30) by (apply Z.pow_le_mono_r; lia).
  change (2 ^ 30) with 1073741824 in *. change (2 ^ 31) with 2147483648. lia.
Qed.

(** From [2^i] the loop climbs to [2^n], the first power that reaches
    [KMER], when it has fuel for the [n - i] doublings. *)
Lemma mod_len_loop_climbs KMER n :
  0 < KMER -> n = Z.log2_up KMER -> n <= 30 ->
  forall fuel i, 0 <= i <= n -> n - i <= Z.of_nat fuel ->
    mod_len_loop fuel KMER (2 ^ i) = Some (2 ^ n).
Proof.
  intros HK Hn Hn30. induction fuel as [|fuel IH]; intros i Hi Hfuel.
  - assert (i = n) by lia. subst i. cbn [mod_len_loop].
    destruct (Z.ltb_spec (2 ^ n) KMER) as [Hlt|_]; [|reflexivity].
    apply Z.log2_up_lt_pow2 in Hlt; lia.
  - cbn [mod_len_loop]. destruct (Z.ltb_spec (2 ^ i) KMER) as [Hlt|Hge].
    + apply Z.log2_up_lt_pow2 in Hlt; [|lia].
      rewrite shiftl_pow2 by lia.
      rewrite wrap32_id by (apply pow2_int_range; lia).
      apply IH; lia.
    + apply Z.log2_up_le_pow2 in Hge; [|lia].
      replace i with n by lia. reflexivity.
Qed.

(** Once MOD_LEN has wrapped round to zero the loop turns for ever. *)
Lemma mod_len_loop_zero KMER fuel : 0 < KMER -> mod_len_loop fuel KMER 0 = None.
Proof.
  intros HK. induction fuel as [|fuel IH]; simpl.
  - destruct (Z.ltb_spec 0 KMER); [reflexivity|lia].
  - destruct (Z.ltb_spec 0 KMER); [exact IH|lia].
Qed.

Lemma mod_len_loop_more KMER fuel m r :
  mod_len_loop fuel KMER m = Some r ->
  forall fuel', (fuel <= fuel')%nat -> mod_len_loop fuel' KMER m = Some r.
Proof.
  revert m. induction fuel as [|fuel IH]; intros m H fuel' Hle.
  - simpl in H. destruct (m <? KMER) eqn:E; [discriminate|].
    destruct fuel'; simpl; rewrite E; exact H.
  - destruct fuel' as [|fuel']; [lia|]. simpl in *.
    destruct (m <? KMER); [|exact H]. apply IH; [exact H|lia].
Qed.

(** [minimizer_ring] gives up after 32 turns only when no number of turns
    would do. *)
Lemma mod_len_loop_stuck KMER :
  mod_len_loop 32 KMER 1 = None -> forall fuel, mod_len_loop fuel KMER 1 = None.
Proof.
  intros H fuel.
  destruct (Z_le_gt_dec KMER (2 ^ 30)) as [Hle|Hgt].
  - destruct (Z_lt_le_dec 0 KMER) as [Hpos|Hneg].
    + pose proof (mod_len_loop_climbs KMER _ Hpos eq_refl) as C.
      assert (Z.log2_up KMER <= 30) by (apply Z.log2_up_le_pow2; lia).
      pose proof (Z.log2_up_nonneg KMER).
      change 1 with (2 ^ 0) in H.
      rewrite (C ltac:(lia) 32%nat 0) in H; [discriminate|lia|simpl; lia].
    + simpl in H. destruct (Z.ltb_spec 1 KMER); [lia|discriminate].
  - change (2 ^ 30) with 1073741824 in Hgt.
    destruct (mod_len_loop fuel KMER 1) as [r|] eqn:E; [|reflexivity].
    exfalso.
    apply mod_len_loop_more with (fuel' := (fuel + 32)%nat) in E; [|lia].
    replace (fuel + 32)%nat with (32 + fuel)%nat in E by lia.
    cbn [Nat.add mod_len_loop] in E.
    repeat match type of E with
           | context [?a <? KMER] =>
               destruct (Z.ltb_spec a KMER); [|lia]; cbn in E
           end.
    rewrite mod_len_loop_zero in E by lia. discriminate.
Qed.

End Ring.

Lemma power_of_two_log2_up K : 0 < K -> smallest_power_of_two_from K (2 ^ Z.log2_up K).
Proof.
  intros HK. pose proof (Z.log2_up_nonneg K) as Hn.
  split; [exists (Z.log2_up K); split; [exact Hn|reflexivity]|]. split.
  - apply Z.log2_up_le_pow2; lia.
  - intros L' [m [Hm ->]] Hle. apply Z.pow_le_mono_r; [lia|].
    apply Z.log2_up_le_pow2; lia.
Qed.

(** C1, as amended.  For a k-mer length K with 1 <= K <= 2^29 (the range
    in which the doublings stay inside an int), MOD_LEN is twice the
    smallest power of two that is at least K: a power of two strictly
    greater than K, the smallest such exactly when K is itself a power of
    two, and MOD_MSK = MOD_LEN - 1.  K = 40 gives 128 and K = 64 gives
    128. *)
Theorem ring_is_twice_the_power_reaching_K (K : Z) :
  1 <= K <= 2 ^ 29 ->
  exists L,
    smallest_power_of_two_from K L /\
    minimizer_ring K = Some (2 * L, 2 * L - 1) /\
    power_of_two (2 * L) /\ K < 2 * L /\
    (smallest_power_of_two_above K (2 * L) <-> K = L) /\
    (K = 40 -> 2 * L = 128) /\ (K = 64 -> 2 * L = 128).
Proof.
  intros HK. set (n := Z.log2_up K).
  assert (Hn0 : 0 <= n) by apply Z.log2_up_nonneg.
  assert (Hn : n <= 29) by (apply Z.log2_up_le_pow2; lia).
  destruct (power_of_two_log2_up K ltac:(lia)) as [Hp [Hle Hmin]].
  fold n in Hp, Hle, Hmin.
  assert (Hpos : 0 < 2 ^ n) by (apply Z.pow_pos_nonneg; lia).
  assert (Hdouble : 2 * 2 ^ n = 2 ^ (n + 1)).
  { rewrite Z.pow_add_r by lia. lia. }
  assert (Htwice : power_of_two (2 * 2 ^ n)).
  { exists (n + 1). split; [lia|exact Hdouble]. }
  exists (2 ^ n).
  split; [repeat split; assumption|]. split; [|split; [exact Htwice|]].
  - unfold minimizer_ring. change 1 with (2 ^ 0) at 1.
    rewrite (mod_len_loop_climbs K n) by (simpl; lia).
    rewrite shiftl_pow2 by lia.
    pose proof (pow2_int_range (n + 1) ltac:(lia)) as R.
    rewrite wrap32_id by exact R. unfold int_range in R.
    rewrite wrap32_id by (unfold int_range; lia).
    rewrite Hdouble. reflexivity.
  - split; [lia|]. split; [split|split].
    + intros [_ [_ Hleast]].
      destruct (Z.eq_dec K (2 ^ n)) as [?|Hne]; [assumption|].
      specialize (Hleast (2 ^ n) Hp ltac:(lia)). lia.
    + intros HKL. split; [exact Htwice|]. split; [lia|].
      intros L' [m [Hm ->]] Hlt. rewrite Hdouble.
      apply Z.pow_le_mono_r; [lia|].
      rewrite HKL in Hlt. apply Z.pow_lt_mono_r_iff in Hlt; lia.
    + intros ->. reflexivity.
    + intros ->. reflexivity.
Qed.

Lemma ring_is_twice_the_power_reaching_K_witness :
  1 <= 40 <= 2 ^ 29 /\
  exists L,
    smallest_power_of_two_from 40 L /\
    minimizer_ring 40 = Some (2 * L, 2 * L - 1) /\
    power_of_two (2 * L) /\ 40 < 2 * L /\
    (smallest_power_of_two_above 40 (2 * L) <-> 40 = L) /\
    (40 = 40 -> 2 * L = 128) /\ (40 = 64 -> 2 * L = 128).
Proof.
  assert (H : 1 <= 40 <= 2 ^ 29) by (simpl; lia).
  split; [exact H | exact (ring_is_twice_the_power_reaching_K 40 H)].
Defined.

(** C1 fails at K = 40: the ring has 128 slots, and 64 is a smaller power
    of two above 40. *)
Lemma ring_of_40_is_not_the_smallest_above :
  ~ (exists L, minimizer_ring 40 = Some (L, L - 1) /\
               smallest_power_of_two_above 40 L).
Proof.
  intros [L [Hring [_ [_ Hmin]]]].
  assert (L = 128) by (vm_compute in Hring; congruence). subst L.
  specialize (Hmin 64). 
  assert (128 <= 64); [|lia].
  apply Hmin; [exists 6; split; [lia|reflexivity] | lia].
Qed.

(** ** The length field of a super-mer (lines 395-404) *)

Section Length_field.

Lemma slen_loop_counts val bits :
  0 <= bits -> bits + Z.log2 val + 1 < 2 ^ 31 ->
  slen_loop val bits = if 0 <? val then bits + Z.log2 val + 1 else bits.
Proof.
  funelim (slen_loop val bits); intros Hbits Hfit.
  - pose proof (Z.log2_nonneg val) as Hlog.
    change (2 ^ 31) with 2147483648 in *.
    assert (Hw : wrap32 (SLEN_BITS0 + 1) = SLEN_BITS0 + 1).
    { apply wrap32_id. unfold int_range. change (2 ^ 31) with 2147483648. lia. }
    rewrite Hw in *.
    destruct (Z.ltb_spec 0 val) as [_|?]; [|lia].
    destruct (Z.eq_dec val 1) as [->|Hne].
    + change (Z.shiftr 1 1) with 0. simp slen_loop.
      destruct (Z_lt_dec 0 0) as [?|?]; [lia|]. simp slen_loop.
      change (Z.log2 1) with 0. lia.
    + assert (Hshift : Z.log2 (Z.shiftr val 1) = Z.max 0 (Z.log2 val - 1))
        by (apply Z.log2_shiftr; lia).
      assert (0 < Z.log2 val) by (apply Z.log2_pos; lia).
      assert (0 < Z.shiftr val 1).
      { rewrite Z.shiftr_div_pow2 by lia. change (2 ^ 1) with 2.
        apply Z.div_str_pos. lia. }
      rewrite H by lia.
      destruct (Z.ltb_spec 0 (Z.shiftr val 1)); lia.
  - destruct (Z.ltb_spec 0 val); [lia|reflexivity].
Qed.

(** The number of turns of the loop is the bit length of MAX_SUPER. *)
Lemma SLEN_BITS_bit_length K MAX_SUPER :
  1 <= MAX_SUPER < 2 ^ 31 ->
  SLEN_BITS (layout K MAX_SUPER) = Z.log2 MAX_SUPER + 1 /\
  0 <= Z.log2 MAX_SUPER <= 30.
Proof.
  intros H.
  assert (Hlog : 0 <= Z.log2 MAX_SUPER <= 30).
  { split; [apply Z.log2_nonneg|].
    assert (Z.log2 MAX_SUPER < 31); [|lia]. apply Z.log2_lt_pow2; lia. }
  split; [|exact Hlog]. cbn [layout SLEN_BITS].
  rewrite slen_loop_counts.
  - destruct (Z.ltb_spec 0 MAX_SUPER); lia.
  - lia.
  - change (2 ^ 31) with 2147483648. lia.
Qed.

Lemma shiftr3_ceiling a : (a + 7) / 8 = cdiv a 8.
Proof.
  symmetry. apply cdiv_unique; [lia|].
  pose proof (Z.div_mod (a + 7) 8 ltac:(lia)).
  pose proof (Z.mod_pos_bound (a + 7) 8 ltac:(lia)). lia.
Qed.

End Length_field.

(** C2.  When the scheme selector returns MAX_SUPER >= 1 (an int), the plan
    has SLEN_BITS the smallest n with MAX_SUPER < 2^n, SLEN_BIT_MASK =
    2^SLEN_BITS - 1 and SLEN_BYTES = ceil(SLEN_BITS / 8); with K = 40 and
    MAX_SUPER = 25 it has SMER = 64, SLEN_BITS = 5, SLEN_BYTES = 1,
    SMER_BYTES = 16 and SMER_WORD = 17. *)
Theorem length_field_of_the_plan (env : Env) (o : Options) (b : DATA_BLOCK)
    (w w' : World) (plan : Plan) :
  plan_sizes env o b w = (Return plan, w') ->
  1 <= MAX_SUPER plan < 2 ^ 31 ->
  MAX_SUPER plan = Determine_Scheme env b /\
  (0 <= SLEN_BITS (sizes plan) /\
   MAX_SUPER plan < 2 ^ SLEN_BITS (sizes plan) /\
   forall n, 0 <= n -> MAX_SUPER plan < 2 ^ n -> SLEN_BITS (sizes plan) <= n) /\
  SLEN_BIT_MASK (sizes plan) = 2 ^ SLEN_BITS (sizes plan) - 1 /\
  SLEN_BYTES (sizes plan) = cdiv (SLEN_BITS (sizes plan)) 8 /\
  (KMER o = 40 -> MAX_SUPER plan = 25 ->
   SMER (sizes plan) = 64 /\ SLEN_BITS (sizes plan) = 5 /\
   SLEN_BYTES (sizes plan) = 1 /\ SMER_BYTES (sizes plan) = 16 /\
   SMER_WORD (sizes plan) = 17).
Proof.
  intros Hplan Hsup. unfold plan_sizes in Hplan.
  destruct (too_short (KMER o) b); [discriminate|].
  destruct (minimizer_ring (KMER o)) as [[len msk]|]; [|discriminate].
  injection Hplan as <- _. cbn [MAX_SUPER sizes] in *.
  set (sup := Determine_Scheme env b) in *.
  destruct (SLEN_BITS_bit_length (KMER o) sup Hsup) as [Hbits Hlog].
  cbn [layout SLEN_BITS SLEN_BIT_MASK SLEN_BYTES] in *.
  split; [reflexivity|]. split; [|split; [|split]].
  - rewrite Hbits. split; [lia|]. split.
    + apply Z.log2_lt_pow2; lia.
    + intros n Hn Hlt. apply Z.log2_lt_pow2 in Hlt; lia.
  - rewrite Hbits. rewrite Z.shiftl_1_l.
    assert (0 < 2 ^ (Z.log2 sup + 1)) by (apply Z.pow_pos_nonneg; lia).
    assert (2 ^ (Z.log2 sup + 1) <= 2 ^ 31) by (apply Z.pow_le_mono_r; lia).
    change (2 ^ 31) with 2147483648 in *.
    rewrite (to_uint32_id (2 ^ _)) by (change (2 ^ 32) with 4294967296; lia).
    rewrite to_uint32_id by (change (2 ^ 32) with 4294967296; lia).
    apply to_uint64_id. change (2 ^ 64) with 18446744073709551616. lia.
  - rewrite Hbits.
    rewrite wrap32_id by (unfold int_range; change (2 ^ 31) with 2147483648; lia).
    rewrite Z.shiftr_div_pow2 by lia. change (2 ^ 3) with 8.
    apply shiftr3_ceiling.
  - intros HK H25. rewrite HK, H25. repeat split.
Qed.

Lemma length_field_of_the_plan_witness :
  let env := env_of (block_of 1000000000 1000 10) 25 no_files 3 in
  let o := defaults env in
  let b := block_of 1000000000 1000 10 in
  let plan :=
    {| KMER_BYTES := 10; NPARTS := 10; MOD_LEN := 128; MOD_MSK := 127;
       MAX_SUPER := 25; sizes := layout 40 25 |} in
  SLEN_BITS (sizes plan) = 5 /\ SLEN_BIT_MASK (sizes plan) = 31 /\
  SLEN_BYTES (sizes plan) = cdiv 5 8.
Proof.
  intros env o b plan.
  assert (Hrun : plan_sizes env o b (start 256 1024) = (Return plan, start 256 1024))
    by (vm_compute; reflexivity).
  assert (Hsup : 1 <= MAX_SUPER plan < 2 ^ 31) by (simpl; lia).
  pose proof (length_field_of_the_plan env o b _ _ plan Hrun Hsup)
    as [_ [_ [Hmask [Hbytes Hcase]]]].
  destruct (Hcase eq_refl eq_refl) as [_ [H5 _]].
  rewrite H5 in Hmask, Hbytes. repeat split; assumption.
Defined.

(** ** The partition count (lines 367-368) *)

Section Partition_count.

Lemma cdiv_nonneg a b : 0 < b -> 0 <= a -> 0 <= cdiv a b.
Proof. intros Hb Ha. pose proof (cdiv_spec a b Hb). nia. Qed.

(** A larger divisor gives a ceiling that is no larger. *)
Lemma cdiv_antitone a b b' : 0 <= a -> 0 < b <= b' -> cdiv a b' <= cdiv a b.
Proof.
  intros Ha Hb.
  pose proof (cdiv_spec a b ltac:(lia)).
  pose proof (cdiv_spec a b' ltac:(lia)).
  pose proof (cdiv_nonneg a b ltac:(lia) Ha). nia.
Qed.

Lemma NPARTS_of_ceiling g M :
  0 <= g < 2 ^ 63 -> 1 < M -> cdiv g M < 2 ^ 31 ->
  NPARTS_of g M = Z.max 1 (cdiv g M).
Proof.
  intros Hg HM Hfit. unfold NPARTS_of.
  change (2 ^ 63) with 9223372036854775808 in Hg.
  change (2 ^ 31) with 2147483648 in Hfit.
  rewrite (wrap64_id (g - 1))
    by (unfold int64_range; change (2 ^ 63) with 9223372036854775808; lia).
  destruct (Z.eq_dec g 0) as [->|Hne].
  - change (0 - 1) with (Z.opp 1). rewrite Z.quot_opp_l by lia.
    rewrite Z.quot_small by lia. reflexivity.
  - rewrite Z.quot_div_nonneg by lia.
    assert (Hc : (g - 1) / M + 1 = cdiv g M).
    { symmetry. apply cdiv_unique; [lia|].
      pose proof (Z.div_mod (g - 1) M ltac:(lia)).
      pose proof (Z.mod_pos_bound (g - 1) M ltac:(lia)). nia. }
    rewrite Hc.
    assert (1 <= cdiv g M) by (pose proof (cdiv_spec g M ltac:(lia)); nia).
    rewrite wrap64_id
      by (unfold int64_range; change (2 ^ 63) with 9223372036854775808; lia).
    rewrite wrap32_id by (unfold int_range; change (2 ^ 31) with 2147483648; lia).
    lia.
Qed.

Lemma plan_sizes_NPARTS env o b w w' plan :
  plan_sizes env o b w = (Return plan, w') ->
  NPARTS plan = NPARTS_of (projected (KMER o) b) (SORT_MEMORY o).
Proof.
  unfold plan_sizes. destruct (too_short (KMER o) b); [discriminate|].
  destruct (minimizer_ring (KMER o)) as [[len msk]|]; [|discriminate].
  intros H. injection H as <- _. reflexivity.
Qed.

End Partition_count.

(** C3.  NPARTS is the ceiling of the projected size over SORT_MEMORY, and
    1 when that is 0: it is at least 1, and a plan made for the same
    k-mer length and block with a larger SORT_MEMORY has no more parts.
    The projected size is an int64 that is not negative, SORT_MEMORY is
    more than one byte and the count fits an int. *)
Theorem partition_count (env : Env) (o : Options) (b : DATA_BLOCK)
    (w w' : World) (plan : Plan) :
  plan_sizes env o b w = (Return plan, w') ->
  0 <= projected (KMER o) b < 2 ^ 63 ->
  1 < SORT_MEMORY o ->
  cdiv (projected (KMER o) b) (SORT_MEMORY o) < 2 ^ 31 ->
  projected (KMER o) b
    = ratio_product b (gsize_of (KMER o) b) (rsize_of (KMER o)) /\
  NPARTS plan = Z.max 1 (cdiv (projected (KMER o) b) (SORT_MEMORY o)) /\
  (1 <= projected (KMER o) b ->
   NPARTS plan = cdiv (projected (KMER o) b) (SORT_MEMORY o)) /\
  1 <= NPARTS plan /\
  forall o' w1 w1' plan',
    KMER o' = KMER o -> SORT_MEMORY o <= SORT_MEMORY o' ->
    plan_sizes env o' b w1 = (Return plan', w1') ->
    NPARTS plan' <= NPARTS plan.
Proof.
  intros Hplan Hg HM Hfit.
  apply plan_sizes_NPARTS in Hplan.
  pose proof (NPARTS_of_ceiling _ _ Hg HM Hfit) as Hc. rewrite <- Hplan in Hc.
  split; [reflexivity|]. split; [exact Hc|]. split; [|split].
  - intros H1. rewrite Hc.
    pose proof (cdiv_spec (projected (KMER o) b) (SORT_MEMORY o) ltac:(lia)). nia.
  - lia.
  - intros o' w1 w1' plan' HK HM' Hplan'.
    apply plan_sizes_NPARTS in Hplan'. rewrite HK in Hplan'.
    pose proof (cdiv_antitone (projected (KMER o) b) (SORT_MEMORY o)
                  (SORT_MEMORY o') ltac:(lia) ltac:(lia)) as Hanti.
    rewrite Hplan', NPARTS_of_ceiling by lia. lia.
Qed.

Lemma partition_count_witness :
  let b := block_of 1000000000 1000 10 in
  let env := env_of b 25 no_files 3 in
  let o := defaults env in
  let plan :=
    {| KMER_BYTES := 10; NPARTS := 10; MOD_LEN := 128; MOD_MSK := 127;
       MAX_SUPER := 25; sizes := layout 40 25 |} in
  projected (KMER o) b = 119995200000 /\ SORT_MEMORY o = 12000000000 /\
  NPARTS plan = Z.max 1 (cdiv 119995200000 12000000000) /\ 1 <= NPARTS plan.
Proof.
  intros b env o plan.
  assert (Hrun : plan_sizes env o b (start 256 1024) = (Return plan, start 256 1024))
    by (vm_compute; reflexivity).
  assert (Hg : 0 <= projected (KMER o) b < 2 ^ 63) by (vm_compute; split; congruence).
  assert (HM : 1 < SORT_MEMORY o) by (simpl; lia).
  assert (Hfit : cdiv (projected (KMER o) b) (SORT_MEMORY o) < 2 ^ 31)
    by (vm_compute; reflexivity).
  pose proof (partition_count env o b _ _ plan Hrun Hg HM Hfit)
    as [_ [Hmax [_ [Hone _]]]].
  split; [vm_compute; reflexivity|]. split; [reflexivity|].
  split; [exact Hmax | exact Hone].
Defined.

(** ** The length of a profile segment (line 406) *)

(** C7, as amended.  PLEN_BYTES is the floor of (SLEN_BITS + 8) / 8, that
    is SLEN_BITS / 8 rounded down plus one, the bytes that hold
    SLEN_BITS + 1 bits, for every SLEN_BITS from 0 to 2^31 - 9.  It is the
    ceiling of (SLEN_BITS + 8) / 8 exactly when SLEN_BITS is a multiple
    of 8. *)
Theorem profile_length_bytes (bits : Z) :
  0 <= bits < 2 ^ 31 - 8 ->
  (forall K MAX_SUPER, SLEN_BITS (layout K MAX_SUPER) = bits ->
     PLEN_BYTES (layout K MAX_SUPER) = PLEN_BYTES_of bits) /\
  PLEN_BYTES_of bits = (bits + 8) / 8 /\
  PLEN_BYTES_of bits = bits / 8 + 1 /\
  PLEN_BYTES_of bits = cdiv (bits + 1) 8 /\
  (PLEN_BYTES_of bits = cdiv (bits + 8) 8 <-> bits mod 8 = 0).
Proof.
  intros Hb. change (2 ^ 31) with 2147483648 in Hb.
  assert (Hfloor : PLEN_BYTES_of bits = (bits + 8) / 8).
  { unfold PLEN_BYTES_of.
    rewrite wrap32_id by (unfold int_range; change (2 ^ 31) with 2147483648; lia).
    rewrite Z.shiftr_div_pow2 by lia. reflexivity. }
  pose proof (Z.div_mod bits 8 ltac:(lia)) as Hdm.
  pose proof (Z.mod_pos_bound bits 8 ltac:(lia)) as Hmod.
  assert (Hplus : (bits + 8) / 8 = bits / 8 + 1).
  { replace (bits + 8) with (bits + 1 * 8) by lia. apply Z.div_add. lia. }
  assert (Hceil1 : cdiv (bits + 1) 8 = bits / 8 + 1)
    by (apply cdiv_unique; lia).
  split; [|split; [|split; [|split]]].
  - intros K MAX_SUPER <-. reflexivity.
  - exact Hfloor.
  - lia.
  - lia.
  - rewrite Hfloor, Hplus. split.
    + intros H. pose proof (cdiv_spec (bits + 8) 8 ltac:(lia)). lia.
    + intros H0. symmetry. apply cdiv_unique; lia.
Qed.

Lemma profile_length_bytes_witness :
  0 <= 5 < 2 ^ 31 - 8 /\ PLEN_BYTES_of 5 = 5 / 8 + 1 /\
  PLEN_BYTES (layout 40 25) = PLEN_BYTES_of 5.
Proof.
  assert (H : 0 <= 5 < 2 ^ 31 - 8) by (simpl; lia).
  pose proof (profile_length_bytes 5 H) as [Hlayout [_ [Hfloor _]]].
  split; [exact H|]. split; [exact Hfloor|].
  apply Hlayout. reflexivity.
Defined.

(** C7 fails for the layout of K = 40 and MAX_SUPER = 25: SLEN_BITS is 5,
    PLEN_BYTES is 1, and the ceiling of 13 / 8 is 2. *)
Lemma profile_length_is_not_the_ceiling :
  SLEN_BITS (layout 40 25) = 5 /\ PLEN_BYTES (layout 40 25) = 1 /\
  cdiv (SLEN_BITS (layout 40 25) + 8) 8 = 2 /\
  PLEN_BYTES (layout 40 25) <> cdiv (SLEN_BITS (layout 40 25) + 8) 8.
Proof.
  repeat split; try reflexivity. vm_compute. discriminate.
Qed.

(** ** Before the descriptor guard, main only reads

    Up to line 407 main writes nothing but the message that precedes an
    [exit (1)]: every phase before the descriptor guard is [quiet]. *)

Section Quiet.

Variable h : bool.

Lemma quiet_ret {A} (a : A) : quiet h (ret a).
Proof. intros w. left. exists a. reflexivity. Qed.

Lemma quiet_die {A} (d : diagnostic) : quiet h (@die A d).
Proof. intros w. right. left. exists d. reflexivity. Qed.

Lemma quiet_hang {A} : quiet true (@hang A).
Proof. intros w. right. right. split; reflexivity. Qed.

Lemma quiet_bind {A B} (c : Run A) (k : A -> Run B) :
  quiet h c -> (forall a, quiet h (k a)) -> quiet h (bind c k).
Proof.
  intros Hc Hk w. unfold bind.
  destruct (Hc w) as [[a E]|[[d E]|[Hh E]]]; rewrite E.
  - apply Hk.
  - right. left. exists d. reflexivity.
  - right. right. split; [exact Hh|reflexivity].
Qed.

Lemma quiet_macro {A} arg (r : option A) : quiet h (macro arg r).
Proof. destruct r; [apply quiet_ret|apply quiet_die]. Qed.

Lemma quiet_if {A} (b : bool) (c1 c2 : Run A) :
  quiet h c1 -> quiet h c2 -> quiet h (if b then c1 else c2).
Proof. destruct b; auto. Qed.

(** A quiet computation that returns has left the world as it was. *)
Lemma quiet_returns {A} (c : Run A) w a w' :
  quiet h c -> c w = (Return a, w') -> w' = w.
Proof.
  intros Hc E. destruct (Hc w) as [[a' E']|[[d E']|[_ E']]]; congruence.
Qed.

End Quiet.

Create HintDb quiet.
#[local] Hint Resolve quiet_ret quiet_die quiet_hang quiet_macro : quiet.
#[local] Hint Extern 2 (quiet _ (bind _ _)) => apply quiet_bind; [|intro] : quiet.
#[local] Hint Extern 2 (quiet _ (if _ then _ else _)) => apply quiet_if : quiet.

Ltac quiet_cases :=
  repeat match goal with
         | |- quiet _ (match ?x with _ => _ end) => destruct x
         | |- quiet _ (let (_, _) := ?x in _) => destruct x
         end.

Section Quiet_phases.

Variable env : Env.

Lemma quiet_arg_flags arg o : quiet false (arg_flags env arg o).
Proof. unfold arg_flags. auto with quiet. Qed.

Lemma quiet_stub_arg table o : quiet false (stub_arg env table o).
Proof. unfold stub_arg. quiet_cases; auto with quiet. Qed.

Lemma quiet_option_arg arg o : quiet false (option_arg env arg o).
Proof.
  pose proof quiet_arg_flags. pose proof quiet_stub_arg.
  unfold option_arg. cbv zeta. auto 20 with quiet.
Qed.

Lemma quiet_option_loop args :
  forall o sources, quiet false (option_loop env args o sources).
Proof.
  induction args as [|arg args IH]; intros o sources; cbn [option_loop].
  - apply quiet_ret.
  - destruct (is_option arg); [|apply IH].
    apply quiet_bind; [apply quiet_option_arg|]. intros o'. apply IH.
Qed.

Lemma quiet_check_stub o : quiet false (check_stub o).
Proof. unfold check_stub. auto with quiet. Qed.

Lemma quiet_read_options args : quiet false (read_options env args).
Proof.
  unfold read_options. apply quiet_bind; [apply quiet_option_loop|].
  intros p. apply quiet_bind; [apply quiet_check_stub|]. auto with quiet.
Qed.

Lemma quiet_scratch_path path : quiet false (scratch_path env path).
Proof. unfold scratch_path. auto 10 with quiet. Qed.

Lemma quiet_sample args : quiet false (sample env args).
Proof.
  unfold sample. apply quiet_bind; [apply quiet_read_options|].
  intros p. apply quiet_bind; [apply quiet_scratch_path|]. auto with quiet.
Qed.

Lemma quiet_plan_sizes o b : quiet true (plan_sizes env o b).
Proof. unfold plan_sizes. quiet_cases; auto with quiet. Qed.

Lemma sample_returns args w s w' :
  sample env args w = (Return s, w') -> w' = w.
Proof. apply quiet_returns with (h := false), quiet_sample. Qed.

Lemma plan_sizes_returns o b w plan w' :
  plan_sizes env o b w = (Return plan, w') -> w' = w.
Proof. apply quiet_returns with (h := true), quiet_plan_sizes. Qed.

End Quiet_phases.

(** ** Runs of main *)

Section Runs.

Variable env : Env.

Lemma bind_exit {A B} (c : Run A) (k : A -> Run B) w code w' :
  c w = (Exit code, w') -> bind c k w = (Exit code, w').
Proof. intros E. unfold bind. rewrite E. reflexivity. Qed.

Lemma bind_hang {A B} (c : Run A) (k : A -> Run B) w w' :
  c w = (Hang, w') -> bind c k w = (Hang, w').
Proof. intros E. unfold bind. rewrite E. reflexivity. Qed.

Lemma stages_app t t' : stages (t ++ t')%list = (stages t ++ stages t')%list.
Proof. apply filter_app. Qed.

Lemma stages_after_message d w : stages (trace (emit (Stderr d) w)) = stages (trace w).
Proof. cbn. rewrite stages_app. cbn. apply app_nil_r. Qed.

Lemma main_sampled args w s :
  sample env args w = (Return s, w) ->
  main env args w
  = bind (prepare env s)
      (fun _ => bind (run_stages (opts s) (pwd s) (root s)) (fun _ => exit 0)) w.
Proof. intros E. unfold main. unfold bind at 1. rewrite E. reflexivity. Qed.

Lemma run_stages_trace o pwd root w :
  run_stages o pwd root w = (Return tt, after (stage_calls o pwd root) w).
Proof.
  unfold run_stages, stage_calls, bind, event_, ret, after, emit.
  destruct (0 <? DO_TABLE o), (0 <? DO_PROFILE o); cbn;
    repeat rewrite <- app_assoc; reflexivity.
Qed.

(** Without overflow the comparison of line 363 is the one on integers. *)
Lemma too_short_exact K b :
  int_range (K * nreads b) -> int64_range (totlen b - K * nreads b) ->
  too_short K b = (totlen b - K * nreads b <? Z.quot (totlen b) 3).
Proof.
  intros H32 H64. unfold too_short, gsize_of.
  rewrite (wrap32_id _ H32), (wrap64_id _ H64). reflexivity.
Qed.

End Runs.



(** C4.  The guard of line 363 misses a block of many short reads: the
    product KMER * nreads is formed in int before it is subtracted from
    the int64 total.  With K = 100 and a first block of 27,777,777 reads
    of 36 bases (999,999,972 bases, within the 10^9 that are sampled),
    totlen - K * nreads = -1,777,777,728 is below totlen / 3 and the
    reads are shorter than 1.5 K, but the int product wraps to
    -1,517,189,596, gsize becomes 2,517,189,568 and the test fails: main
    prints no message, calls Split_Kmers and Sorting and exits with
    code 0. *)
Theorem many_short_reads_are_not_rejected :
  let b := block_of 999999972 27777777 1 in
  let env := env_of b 25 no_files 3 in
  totlen b = 36 * nreads b /\
  2 * 36 < 3 * 100 /\
  totlen b - 100 * nreads b < Z.quot (totlen b) 3 /\
  ~ int_range (100 * nreads b) /\
  gsize_of 100 b = 2517189568 /\
  too_short 100 b = false /\
  main env ["-k100"; "reads.fa"]%string (start 256 1024)
  = (Exit 0,
     {| trace := (probe 3 ++ [Setrlimit 35; Split_Kmers "reads";
                              Sorting "." "reads"])%list;
        rlim_cur := 35; rlim_max := 1024 |}).
Proof.
  intros b env.
  split; [reflexivity|].
  split; [lia|].
  split; [vm_compute; reflexivity|].
  split; [unfold int_range; vm_compute; intros [_ Hhigh]; discriminate Hhigh|].
  split; [vm_compute; reflexivity|].
  split; vm_compute; reflexivity.
Qed.

Section Guarded_runs.

Variable env : Env.


Lemma descriptor_guard_run N T w :
  descriptor_guard env N T w
  = let n := nfiles_of N T (open_xxx env) in
    if rlim_max w <? n
    then (Exit 1, after (probe (open_xxx env) ++ [Stderr (Cannot_open_files n)]) w)
    else (Return tt,
          {| trace := (trace w ++ probe (open_xxx env) ++ [Setrlimit n])%list;
             rlim_cur := n; rlim_max := rlim_max w |}).
Proof.
  unfold descriptor_guard, bind, event_, die, emit, after, probe. cbn.
  destruct (rlim_max w <? nfiles_of N T (open_xxx env));
    repeat rewrite <- app_assoc; reflexivity.
Qed.

(** The whole of a run whose sizes get planned. *)
Lemma main_planned args w s plan :
  sample env args w = (Return s, w) ->
  plan_sizes env (opts s) (block s) w = (Return plan, w) ->
  main env args w
  = let n := nfiles_of (NPARTS plan) (NTHREADS (opts s)) (open_xxx env) in
    if rlim_max w <? n
    then (Exit 1, after (probe (open_xxx env) ++ [Stderr (Cannot_open_files n)]) w)
    else (Exit 0,
          {| trace := (trace w ++ probe (open_xxx env)
                         ++ Setrlimit n :: stage_calls (opts s) (pwd s) (root s))%list;
             rlim_cur := n; rlim_max := rlim_max w |}).
Proof.
  intros Hs Hp. rewrite (main_sampled env args w s Hs).
  unfold prepare. unfold bind at 1 2 3. rewrite Hp.
  rewrite descriptor_guard_run. cbv zeta.
  destruct (rlim_max w <? _); [reflexivity|].
  unfold ret, bind. rewrite run_stages_trace. unfold exit, after. cbn.
  repeat rewrite <- app_assoc. reflexivity.
Qed.


End Guarded_runs.



(** C6, as amended.  With NPARTS = 10, NTHREADS = 4, descriptor 3 for the
    throwaway file and a hard limit of 40, the guard needs 51 files, more
    than 40: main exits with code 1 before Split_Kmers, no stage is called,
    and the one file it created, the throwaway file, is unlinked again. *)
Theorem ten_parts_four_threads_need_51_files (env : Env) (args : list string)
    (cur : Z) (w1 w2 : World) (s : Sampled) (plan : Plan) :
  sample env args (start cur 40) = (Return s, w1) ->
  plan_sizes env (opts s) (block s) w1 = (Return plan, w2) ->
  NPARTS plan = 10 -> NTHREADS (opts s) = 4 -> open_xxx env = 3 ->
  let t := [Open ".xxx" 3; Close 3; Unlink ".xxx";
            Stderr (Cannot_open_files 51)] in
  nfiles_of (NPARTS plan) (NTHREADS (opts s)) (open_xxx env) = 51 /\
  40 < 51 /\
  main env args (start cur 40)
    = (Exit 1, {| trace := t; rlim_cur := cur; rlim_max := 40 |}) /\
  stages t = [] /\ files_left t [] = [].
Proof.
  intros Hs Hp HN HT Htid t.
  assert (w1 = start cur 40) by (eapply sample_returns; exact Hs). subst w1.
  assert (w2 = start cur 40) by (eapply plan_sizes_returns; exact Hp). subst w2.
  rewrite (main_planned env args _ s plan Hs Hp). rewrite HN, HT, Htid.
  repeat split.
Qed.

Lemma ten_parts_four_threads_need_51_files_witness :
  let b := block_of 1000000000 1000 10 in
  let env := env_of b 25 no_files 3 in
  main env ["reads.fa"]%string (start 256 40)
  = (Exit 1, {| trace := [Open ".xxx" 3; Close 3; Unlink ".xxx";
                          Stderr (Cannot_open_files 51)];
                rlim_cur := 256; rlim_max := 40 |}).
Proof.
  intros b env.
  pose (s := {| opts := defaults env; Driver.root := "reads"; pwd := ".";
                block := b |}).
  pose (plan := {| KMER_BYTES := 10; NPARTS := 10; MOD_LEN := 128;
                   MOD_MSK := 127; MAX_SUPER := 25; sizes := layout 40 25 |}).
  assert (Hs : sample env ["reads.fa"]%string (start 256 40)
               = (Return s, start 256 40)) by (vm_compute; reflexivity).
  assert (Hp : plan_sizes env (opts s) (block s) (start 256 40)
               = (Return plan, start 256 40)) by (vm_compute; reflexivity).
  exact (proj1 (proj2 (proj2
           (ten_parts_four_threads_need_51_files env _ 256 _ _ s plan Hs Hp
              eq_refl eq_refl eq_refl)))).
Defined.

(** C6 fails on its number: (10 + 2) * 4 + 3 is 51, not 43. *)
Lemma ten_parts_four_threads_do_not_need_43_files :
  nfiles_of 10 4 3 = 51 /\ nfiles_of 10 4 3 <> 43.
Proof. split; [reflexivity | vm_compute; discriminate]. Qed.

(** ** The order of the stages (lines 430-457) *)

Section Stage_order.

Lemma stages_stage_calls o pwd root :
  stages (stage_calls o pwd root) = stage_calls o pwd root.
Proof.
  unfold stage_calls. destruct (0 <? DO_TABLE o), (0 <? DO_PROFILE o); reflexivity.
Qed.

(** X20.  Whatever the arguments and the environment, a run calls no
    stage at all and does not exit with code 0, or it calls the stages of
    [stage_calls], in that order, and exits with code 0. *)
Lemma stage_calls_of_any_run (env : Env) args cur max :
  let r := main env args (start cur max) in
  (fst r <> Exit 0 /\ stages (trace (snd r)) = []) \/
  (exists s,
     sample env args (start cur max) = (Return s, start cur max) /\
     fst r = Exit 0 /\
     stages (trace (snd r)) = stage_calls (opts s) (pwd s) (root s)).
Proof.
  cbv zeta. set (w := start cur max).
  destruct (quiet_sample env args w) as [[s Hs]|[[d Hs]|[Hh _]]];
    [| |discriminate].
  - destruct (quiet_plan_sizes env (opts s) (block s) w)
      as [[plan Hp]|[[d Hp]|[_ Hp]]].
    + rewrite (main_planned env args w s plan Hs Hp). cbv zeta.
      destruct (rlim_max w <? _).
      * left. split; [discriminate|reflexivity].
      * right. exists s. split; [exact Hs|]. split; [reflexivity|].
        cbn [snd trace w start app].
        change (Setrlimit ?n :: ?l) with ([Setrlimit n] ++ l)%list.
        rewrite !stages_app, stages_stage_calls. reflexivity.
    + left. rewrite (main_sampled env args w s Hs).
      erewrite bind_exit by (unfold prepare; apply bind_exit; exact Hp).
      split; [discriminate|apply stages_after_message].
    + left. rewrite (main_sampled env args w s Hs).
      erewrite bind_hang by (unfold prepare; apply bind_hang; exact Hp).
      split; [discriminate|reflexivity].
  - left. unfold main. erewrite bind_exit by exact Hs.
    split; [discriminate|apply stages_after_message].
Qed.

End Stage_order.



(** ** The header of a stub (lines 217-218) *)

Section Stub_header.

Lemma Z_of_byte_of z : Z_of_byte (byte_of z) = z mod 256.
Proof.
  unfold Z_of_byte, byte_of.
  pose proof (Z.mod_pos_bound z 256 ltac:(lia)) as Hm.
  destruct (Byte.of_N (Z.to_N (z mod 256))) as [b|] eqn:E.
  - apply Byte.to_of_N in E. rewrite E. apply Z2N.id. lia.
  - apply Byte.of_N_None_iff in E. lia.
Qed.

Lemma le_value_of_four u :
  0 <= u < 2 ^ 32 ->
  le_value [byte_of u; byte_of (u / 256); byte_of (u / 65536);
            byte_of (u / 16777216)] = u.
Proof.
  intros Hu. change (2 ^ 32) with 4294967296 in Hu.
  cbn [le_value]. rewrite !Z_of_byte_of.
  pose proof (Z.div_mod u 256 ltac:(lia)).
  pose proof (Z.div_mod (u / 256) 256 ltac:(lia)).
  pose proof (Z.div_mod (u / 256 / 256) 256 ltac:(lia)).
  replace (u / 65536) with (u / 256 / 256)
    by (rewrite Z.div_div by lia; reflexivity).
  replace (u / 16777216) with (u / 256 / 256 / 256)
    by (rewrite !Z.div_div by lia; reflexivity).
  assert (u / 256 / 256 / 256 < 256).
  { apply Z.div_lt_upper_bound; [lia|].
    apply Z.div_lt_upper_bound; [lia|].
    apply Z.div_lt_upper_bound; lia. }
  assert (0 <= u / 256 / 256 / 256) by (repeat apply Z.div_pos; lia).
  rewrite (Z.mod_small (u / 256 / 256 / 256) 256) by lia. lia.
Qed.

(** An int written in the host's byte order is read back. *)
Lemma int_of_int_bytes o k : int_range k -> int_of_bytes o (int_bytes o k) = k.
Proof.
  intros Hk. unfold int_of_bytes, int_bytes.
  assert (Hu : 0 <= to_uint32 k < 2 ^ 32)
    by (apply Z.mod_pos_bound; change (2 ^ 32) with 4294967296; lia).
  destruct o; [|rewrite rev_involutive];
    rewrite (le_value_of_four _ Hu); apply wrap32_to_uint32; exact Hk.
Qed.

Lemma int_bytes_length o k : List.length (int_bytes o k) = 4%nat.
Proof. destruct o; reflexivity. Qed.

(** Reading an int from a file that starts with the four bytes of [k]
    yields [k], whatever the variable held, and leaves the rest. *)
Lemma fread_int_whole o var k rest :
  int_range k -> fread_int o var (int_bytes o k ++ rest)%list = (k, rest).
Proof.
  intros Hk. unfold fread_int.
  pose proof (int_bytes_length o k) as Hlen.
  assert (Hfirst : firstn 4 (int_bytes o k ++ rest)%list = int_bytes o k).
  { rewrite <- Hlen. rewrite firstn_app, firstn_all, Nat.sub_diag. cbn.
    apply app_nil_r. }
  assert (Hskip : skipn 4 (int_bytes o k ++ rest)%list = rest).
  { rewrite <- Hlen. rewrite skipn_app, skipn_all, Nat.sub_diag. reflexivity. }
  rewrite Hfirst, Hskip, Hlen.
  replace (skipn 4 (int_bytes o var)) with (@nil byte)
    by (symmetry; rewrite <- (int_bytes_length o var); apply skipn_all).
  rewrite app_nil_r, int_of_int_bytes by exact Hk. reflexivity.
Qed.

End Stub_header.

(** ** The option [-p:<table>] (lines 199-226 and 273-281) *)

Section Stub_option.

Variable env : Env.

Lemma option_arg_stub table o :
  option_arg env (stub_option table) o = stub_arg env table o.
Proof. reflexivity. Qed.

Lemma stub_arg_read table o w k n rest :
  fopen env (stub_file env table)
    = Some (int_bytes (order env) k ++ int_bytes (order env) n ++ rest)%list ->
  int_range k -> int_range n ->
  stub_arg env table o w
  = if n <=? 0 then (Exit 1, emit (Stderr No_hidden_files) w)
    else (Return (with_stub env table k n o), w).
Proof.
  intros Hf Hk Hn. unfold stub_arg. unfold stub_file in Hf. rewrite Hf.
  cbn [promer PRO_THREADS set_PRO_HIDDEN].
  rewrite (fread_int_whole _ _ k _ Hk), (fread_int_whole _ _ n _ Hn).
  destruct (n <=? 0); reflexivity.
Qed.

(** A stub option that is got over leaves PRO_THREADS positive. *)
Lemma stub_arg_threads table o w o' w' :
  stub_arg env table o w = (Return o', w') -> 0 < PRO_THREADS o'.
Proof.
  unfold stub_arg. destruct (fopen env _) as [f|]; [|discriminate].
  destruct (fread_int _ _ f) as [k f'].
  destruct (fread_int _ _ f') as [n f''].
  destruct (Z.leb_spec n 0) as [?|Hpos]; [discriminate|].
  intros Hrun. injection Hrun as <- _. exact Hpos.
Qed.

(** The other options leave [promer] and PRO_THREADS alone. *)
Lemma option_arg_keeps_stub arg o w o' w' :
  is_stub_option arg = false -> is_option arg = true ->
  option_arg env arg o w = (Return o', w') ->
  promer o' = promer o /\ PRO_THREADS o' = PRO_THREADS o.
Proof.
  unfold is_stub_option. intros Hstub Hopt. rewrite Hopt in Hstub.
  revert Hstub.
  unfold option_arg, arg_flags, macro, bind, ret, die. cbv zeta.
  destruct (at_ arg 1 =? "p")%char eqn:Hp, (at_ arg 2 =? ":")%char eqn:Hc;
    cbn [andb negb]; try discriminate;
  repeat match goal with
         | |- context [if ?b then _ else _] => destruct b eqn:?
         end;
    cbn [andb negb]; try discriminate;
    repeat match goal with
           | |- context [match ?x with _ => _ end] => destruct x eqn:?
           end;
    intros _ Hrun; try discriminate;
    injection Hrun as <- _; split; reflexivity.
Qed.

Lemma option_loop_app pre : forall post o sources w,
  option_loop env (pre ++ post)%list o sources w
  = match option_loop env pre o sources w with
    | (Return p, w') => option_loop env post (fst p) (snd p) w'
    | (Exit code, w') => (Exit code, w')
    | (Hang, w') => (Hang, w')
    end.
Proof.
  induction pre as [|arg pre IH]; intros post o sources w.
  - reflexivity.
  - cbn [app option_loop]. destruct (is_option arg); [|apply IH].
    unfold bind. destruct (option_arg env arg o w) as [[o1| |] w1];
      [apply IH|reflexivity|reflexivity].
Qed.

Lemma option_loop_keeps_stub args : forall o sources w o' sources' w',
  Forall (fun a => is_stub_option a = false) args ->
  option_loop env args o sources w = (Return (o', sources'), w') ->
  promer o' = promer o /\ PRO_THREADS o' = PRO_THREADS o.
Proof.
  induction args as [|arg args IH]; intros o sources w o' sources' w' Hall Hrun.
  - injection Hrun as <- _ _. split; reflexivity.
  - inversion Hall as [|? ? Harg Hrest]; subst. cbn [option_loop] in Hrun.
    destruct (is_option arg) eqn:Hopt.
    + unfold bind in Hrun.
      destruct (option_arg env arg o w) as [[o1| |] w1] eqn:E; try discriminate.
      destruct (option_arg_keeps_stub _ _ _ _ _ Harg Hopt E) as [Hk Hn].
      destruct (IH _ _ _ _ _ _ Hrest Hrun) as [Hk' Hn'].
      split; congruence.
    + eapply IH; eassumption.
Qed.

(** After a stub option the loop ends, if it ends, with PRO_THREADS
    positive. *)
Lemma option_loop_threads args : forall o sources w o' sources' w',
  0 < PRO_THREADS o \/ existsb is_stub_option args = true ->
  option_loop env args o sources w = (Return (o', sources'), w') ->
  0 < PRO_THREADS o'.
Proof.
  induction args as [|arg args IH]; intros o sources w o' sources' w' Hstub Hrun.
  - injection Hrun as <- _ _. destruct Hstub as [?|?]; [assumption|discriminate].
  - cbn [option_loop existsb] in *. destruct (is_option arg) eqn:Hopt.
    + unfold bind in Hrun.
      destruct (option_arg env arg o w) as [[o1| |] w1] eqn:E; try discriminate.
      apply (IH o1 sources w1 o' sources' w'); [|exact Hrun].
      destruct (is_stub_option arg) eqn:Hs.
      * left. unfold is_stub_option in Hs. rewrite Hopt in Hs.
        unfold option_arg in E. cbv zeta in E.
        destruct (at_ arg 1 =? "p")%char eqn:Hp; [|discriminate].
        destruct (at_ arg 2 =? ":")%char eqn:Hc; [|discriminate].
        apply Ascii.eqb_eq in Hp. rewrite Hp in E. cbn in E.
        eapply stub_arg_threads; exact E.
      * destruct (option_arg_keeps_stub _ _ _ _ _ Hs Hopt E) as [_ Hn].
        destruct Hstub as [?|?]; [left; lia|right; assumption].
    + apply (IH o (sources ++ [arg])%list w o' sources' w'); [|exact Hrun].
      unfold is_stub_option in Hstub. rewrite Hopt in Hstub. exact Hstub.
Qed.

Lemma apply_flags_keeps o :
  promer (apply_flags o) = promer o /\
  PRO_THREADS (apply_flags o) = PRO_THREADS o /\
  KMER (apply_flags o) = KMER o.
Proof.
  unfold apply_flags.
  repeat match goal with
         | |- context [if ?b then _ else _] => destruct b
         end; repeat split.
Qed.

(** Lines 273-281, seen from the end of the option loop. *)
Lemma main_checks_stub args w o sources :
  option_loop env args (defaults env) [] w = (Return (o, sources), w) ->
  0 < PRO_THREADS o ->
  main env args w
  = (Exit 1,
     emit (Stderr (if promer o =? KMER o then Not_yet_functional
                   else Kmer_size_differs (promer o) (KMER o))) w).
Proof.
  intros Hloop Hthreads.
  unfold main, sample, read_options. unfold bind at 1 2 3 4. rewrite Hloop.
  cbn [fst snd]. unfold bind at 1. unfold check_stub.
  destruct (apply_flags_keeps o) as [-> [-> ->]].
  destruct (Z.ltb_spec 0 (PRO_THREADS o)) as [_|?]; [|lia].
  destruct (promer o =? KMER o); reflexivity.
Qed.

Lemma main_dies_in_option_loop args w code w' :
  option_loop env args (defaults env) [] w = (Exit code, w') ->
  main env args w = (Exit code, w').
Proof.
  intros Hloop. unfold main, sample, read_options. unfold bind at 1 2 3.
  rewrite Hloop. reflexivity.
Qed.

(** A run with a stub option ends in some [exit (1)] of the options. *)
Lemma main_with_stub_option args w :
  existsb is_stub_option args = true ->
  exists d, main env args w = (Exit 1, emit (Stderr d) w).
Proof.
  intros Hstub.
  destruct (quiet_option_loop env args (defaults env) [] w)
    as [[[o sources] E]|[[d E]|[Hh _]]]; [| |discriminate].
  - eexists. apply main_checks_stub with (sources := sources); [exact E|].
    eapply option_loop_threads; [right; exact Hstub|exact E].
  - exists d. apply main_dies_in_option_loop. exact E.
Qed.

(** The loop up to and including a stub option whose file has a whole
    header. *)
Lemma option_loop_to_stub pre table post w o1 sources1 k n rest :
  option_loop env pre (defaults env) [] w = (Return (o1, sources1), w) ->
  fopen env (stub_file env table)
    = Some (int_bytes (order env) k ++ int_bytes (order env) n ++ rest)%list ->
  int_range k -> int_range n ->
  option_loop env (pre ++ stub_option table :: post)%list (defaults env) [] w
  = if n <=? 0 then (Exit 1, emit (Stderr No_hidden_files) w)
    else option_loop env post (with_stub env table k n o1) sources1 w.
Proof.
  intros Hpre Hf Hk Hn. rewrite option_loop_app, Hpre. cbn [fst snd].
  change (option_loop env (stub_option table :: post) o1 sources1 w)
    with (bind (option_arg env (stub_option table) o1)
            (fun o' => option_loop env post o' sources1) w).
  unfold bind. rewrite option_arg_stub, (stub_arg_read _ _ _ k n rest Hf Hk Hn).
  destruct (n <=? 0); reflexivity.
Qed.

End Stub_option.

(** C9.  After the options before it, an option [-p:<table>] whose stub
    opens and starts with the four bytes of an int k and the four bytes
    of an int n, in the byte order of the host, reads k as the k-mer
    length of the table and n as its number of hidden files.  If n is not
    positive main exits with code 1 on the spot; if n is positive and k
    is not the k-mer length the options end with, main exits with code 1
    when the options are done.  Each time one message is all that main
    has written. *)
Theorem stub_header_is_checked (env : Env) (pre post : list string)
    (table : string) (w : World) (o1 : Options) (sources1 : list string)
    (k n : Z) (rest : list byte) :
  option_loop env pre (defaults env) [] w = (Return (o1, sources1), w) ->
  fopen env (stub_file env table)
    = Some (int_bytes (order env) k ++ int_bytes (order env) n ++ rest)%list ->
  int_range k -> int_range n ->
  let args := (pre ++ stub_option table :: post)%list in
  (forall var1 var2,
     fread_int (order env) var1
       (int_bytes (order env) k ++ int_bytes (order env) n ++ rest)%list
       = (k, (int_bytes (order env) n ++ rest)%list) /\
     fread_int (order env) var2 (int_bytes (order env) n ++ rest)%list
       = (n, rest)) /\
  (n <= 0 -> main env args w = (Exit 1, emit (Stderr No_hidden_files) w)) /\
  (0 < n ->
   stub_arg env table o1 w = (Return (with_stub env table k n o1), w) /\
   promer (with_stub env table k n o1) = k /\
   PRO_THREADS (with_stub env table k n o1) = n /\
   forall o2 sources2,
     Forall (fun a => is_stub_option a = false) post ->
     option_loop env post (with_stub env table k n o1) sources1 w
       = (Return (o2, sources2), w) ->
     k <> KMER o2 ->
     main env args w
       = (Exit 1, emit (Stderr (Kmer_size_differs k (KMER o2))) w)).
Proof.
  intros Hpre Hf Hk Hn args.
  pose proof (option_loop_to_stub env pre table post w o1 sources1 k n rest
                Hpre Hf Hk Hn) as Hloop. fold args in Hloop.
  split; [|split].
  - intros var1 var2. split; apply fread_int_whole; assumption.
  - intros Hle. destruct (Z.leb_spec n 0) as [_|?]; [|lia].
    apply main_dies_in_option_loop. exact Hloop.
  - intros Hpos. destruct (Z.leb_spec n 0) as [?|_]; [lia|].
    split; [|split; [reflexivity|split; [reflexivity|]]].
    + rewrite (stub_arg_read env table o1 w k n rest Hf Hk Hn).
      destruct (Z.leb_spec n 0) as [?|_]; [lia|reflexivity].
    + intros o2 sources2 Hpost Hrun Hdiff.
      destruct (option_loop_keeps_stub env post _ _ _ _ _ _ Hpost Hrun)
        as [Hpromer Hthreads].
      cbn [with_stub promer PRO_THREADS set_DO_PROFILE set_PRO_THREADS
           set_promer] in Hpromer, Hthreads.
      rewrite Hrun in Hloop.
      rewrite (main_checks_stub env args w o2 sources2 Hloop) by lia.
      rewrite Hpromer.
      destruct (Z.eqb_spec k (KMER o2)); [contradiction|reflexivity].
Qed.

Lemma stub_header_is_checked_witness :
  let env := env_of (block_of 1000000000 1000 10) 25 one_stub 3 in
  main env ["-k40"; "-p:small"; "reads.fa"]%string (start 256 1024)
  = (Exit 1, {| trace := [Stderr (Kmer_size_differs 31 40)];
                rlim_cur := 256; rlim_max := 1024 |}).
Proof.
  intros env.
  assert (Hpre : option_loop env ["-k40"%string] (defaults env) [] (start 256 1024)
                 = (Return (set_KMER 40 (defaults env), []), start 256 1024))
    by (vm_compute; reflexivity).
  assert (Hf : fopen env (stub_file env "small")
               = Some (int_bytes (order env) 31 ++ int_bytes (order env) 4
                         ++ [xaa])%list) by (vm_compute; reflexivity).
  assert (Hk : int_range 31) by (vm_compute; split; congruence).
  assert (Hn : int_range 4) by (vm_compute; split; congruence).
  destruct (stub_header_is_checked env _ ["reads.fa"%string] "small" _ _ _
              31 4 [xaa] Hpre Hf Hk Hn) as [_ [_ Hpos]].
  destruct (Hpos ltac:(lia)) as [_ [_ [_ Hdiff]]].
  refine (Hdiff (with_stub env "small" 31 4 (set_KMER 40 (defaults env)))
            ["reads.fa"%string] _ _ _).
  - repeat constructor.
  - vm_compute. reflexivity.
  - vm_compute. discriminate.
Defined.

(** C10.  After the options before it, an option [-p:<table>] whose stub
    opens, has a positive number of hidden files and the k-mer length the
    options end with still makes main exit with code 1, saying that the
    feature is not yet functional, no stage having been called.  Whatever
    the stubs hold, a run with an option [-p:<table>] ends in an
    [exit (1)] before any stage. *)
Theorem stub_mode_is_not_functional (env : Env) (pre post : list string)
    (table : string) (w : World) (o1 o2 : Options)
    (sources1 sources2 : list string) (k n : Z) (rest : list byte) :
  option_loop env pre (defaults env) [] w = (Return (o1, sources1), w) ->
  fopen env (stub_file env table)
    = Some (int_bytes (order env) k ++ int_bytes (order env) n ++ rest)%list ->
  int_range k -> int_range n -> 0 < n ->
  Forall (fun a => is_stub_option a = false) post ->
  option_loop env post (with_stub env table k n o1) sources1 w
    = (Return (o2, sources2), w) ->
  k = KMER o2 ->
  main env (pre ++ stub_option table :: post)%list w
    = (Exit 1, emit (Stderr Not_yet_functional) w) /\
  stages (trace (emit (Stderr Not_yet_functional) w)) = stages (trace w) /\
  forall args,
    existsb is_stub_option args = true ->
    exists d,
      main env args w = (Exit 1, emit (Stderr d) w) /\
      stages (trace (emit (Stderr d) w)) = stages (trace w).
Proof.
  intros Hpre Hf Hk Hn Hpos Hpost Hrun Hsame.
  pose proof (option_loop_to_stub env pre table post w o1 sources1 k n rest
                Hpre Hf Hk Hn) as Hloop.
  destruct (Z.leb_spec n 0) as [?|_]; [lia|]. rewrite Hrun in Hloop.
  destruct (option_loop_keeps_stub env post _ _ _ _ _ _ Hpost Hrun)
    as [Hpromer Hthreads].
  cbn [with_stub promer PRO_THREADS set_DO_PROFILE set_PRO_THREADS
       set_promer] in Hpromer, Hthreads.
  split; [|split].
  - rewrite (main_checks_stub env _ w o2 sources2 Hloop) by lia.
    rewrite Hpromer, Hsame, Z.eqb_refl. reflexivity.
  - apply stages_after_message.
  - intros args Hstub.
    destruct (main_with_stub_option env args w Hstub) as [d Hd].
    exists d. split; [exact Hd | apply stages_after_message].
Qed.

Lemma stub_mode_is_not_functional_witness :
  let env := env_of (block_of 1000000000 1000 10) 25 matching_stub 3 in
  main env ["-p:reads"; "-T8"; "reads.fa"]%string (start 256 1024)
  = (Exit 1, {| trace := [Stderr Not_yet_functional];
                rlim_cur := 256; rlim_max := 1024 |}).
Proof.
  intros env.
  assert (Hpre : option_loop env [] (defaults env) [] (start 256 1024)
                 = (Return (defaults env, []), start 256 1024))
    by reflexivity.
  assert (Hf : fopen env (stub_file env "reads")
               = Some (int_bytes (order env) 40 ++ int_bytes (order env) 4
                         ++ [])%list) by (vm_compute; reflexivity).
  assert (Hk : int_range 40) by (vm_compute; split; congruence).
  assert (Hn : int_range 4) by (vm_compute; split; congruence).
  assert (Hpost : Forall (fun a => is_stub_option a = false)
                    ["-T8"; "reads.fa"]%string) by (repeat constructor).
  assert (Hrun : option_loop env ["-T8"; "reads.fa"]%string
                   (with_stub env "reads" 40 4 (defaults env)) [] (start 256 1024)
                 = (Return (set_NTHREADS 8 (with_stub env "reads" 40 4 (defaults env)),
                            ["reads.fa"%string]), start 256 1024))
    by (vm_compute; reflexivity).
  exact (proj1 (stub_mode_is_not_functional env [] _ "reads" _ _ _ _ _ 40 4 []
                  Hpre Hf Hk Hn ltac:(lia) Hpost Hrun eq_refl)).
Defined.

(** * Further properties of the planner *)

Section Packed_sizes.

Lemma shiftr3_of_int a : 0 <= a < 2 ^ 31 -> Z.shiftr (wrap32 a) 3 = a / 8.
Proof.
  intros Ha. change (2 ^ 31) with 2147483648 in Ha.
  rewrite wrap32_id by (unfold int_range; change (2 ^ 31) with 2147483648; lia).
  rewrite Z.shiftr_div_pow2 by lia. reflexivity.
Qed.

(** Two bits a base: the bytes of [n] bases are the ceiling of [n / 4]. *)
Lemma packed_bytes n :
  0 <= n -> n * 2 + 7 < 2 ^ 31 ->
  Z.shiftr (wrap32 (wrap32 (n * 2) + 7)) 3 = cdiv n 4.
Proof.
  intros Hn Hfit. change (2 ^ 31) with 2147483648 in Hfit.
  rewrite (wrap32_id (n * 2))
    by (unfold int_range; change (2 ^ 31) with 2147483648; lia).
  rewrite shiftr3_of_int by (change (2 ^ 31) with 2147483648; lia).
  symmetry. apply cdiv_unique; [lia|].
  pose proof (Z.div_mod (n * 2 + 7) 8 ltac:(lia)).
  pose proof (Z.mod_pos_bound (n * 2 + 7) 8 ltac:(lia)). lia.
Qed.

Lemma plan_sizes_fields env o b w w' plan :
  plan_sizes env o b w = (Return plan, w') ->
  KMER_BYTES plan = KMER_BYTES_of (KMER o) /\
  MAX_SUPER plan = Determine_Scheme env b /\
  sizes plan = layout (KMER o) (Determine_Scheme env b) /\
  minimizer_ring (KMER o) = Some (MOD_LEN plan, MOD_MSK plan) /\
  too_short (KMER o) b = false.
Proof.
  unfold plan_sizes. destruct (too_short (KMER o) b); [discriminate|].
  destruct (minimizer_ring (KMER o)) as [[len msk]|]; [|discriminate].
  intros H. injection H as <- _. repeat split.
Qed.

Lemma layout_length_field K MAX_SUPER :
  1 <= MAX_SUPER < 2 ^ 31 ->
  SLEN_BIT_MASK (layout K MAX_SUPER) = Z.ones (SLEN_BITS (layout K MAX_SUPER)) /\
  SLEN_BYTES (layout K MAX_SUPER) = (SLEN_BITS (layout K MAX_SUPER) + 7) / 8 /\
  PLEN_BYTES (layout K MAX_SUPER) = (SLEN_BITS (layout K MAX_SUPER) + 8) / 8.
Proof.
  intros Hsup.
  destruct (SLEN_BITS_bit_length K MAX_SUPER Hsup) as [Hbits Hlog].
  cbn [layout SLEN_BITS SLEN_BIT_MASK SLEN_BYTES PLEN_BYTES] in *.
  unfold PLEN_BYTES_of. rewrite Hbits.
  change (2 ^ 31) with 2147483648 in Hsup.
  split; [|split].
  - rewrite Z.ones_equiv, Z.shiftl_1_l.
    assert (0 < 2 ^ (Z.log2 MAX_SUPER + 1)) by (apply Z.pow_pos_nonneg; lia).
    assert (2 ^ (Z.log2 MAX_SUPER + 1) <= 2 ^ 31) by (apply Z.pow_le_mono_r; lia).
    change (2 ^ 31) with 2147483648 in *.
    rewrite (to_uint32_id (2 ^ _)) by (change (2 ^ 32) with 4294967296; lia).
    rewrite to_uint32_id by (change (2 ^ 32) with 4294967296; lia).
    rewrite to_uint64_id by (change (2 ^ 64) with 18446744073709551616; lia).
    lia.
  - apply shiftr3_of_int. change (2 ^ 31) with 2147483648. lia.
  - apply shiftr3_of_int. change (2 ^ 31) with 2147483648. lia.
Qed.

End Packed_sizes.

(** X1.  For a k-mer length K >= 0 with 2K + 7 inside an int, KMER_BYTES
    is the ceiling of K / 4: the bytes that hold K bases at two bits each
    and not one byte more; the record size of the projection and the
    k-mer and table words are KMER_BYTES + 2. *)
Theorem kmer_bytes_hold_the_kmer (env : Env) (o : Options) (b : DATA_BLOCK)
    (w w' : World) (plan : Plan) :
  plan_sizes env o b w = (Return plan, w') ->
  0 <= KMER o -> KMER o * 2 + 7 < 2 ^ 31 ->
  KMER_BYTES plan = cdiv (KMER o) 4 /\
  2 * KMER o <= 8 * KMER_BYTES plan < 2 * KMER o + 8 /\
  rsize_of (KMER o) = KMER_BYTES plan + 2 /\
  KMER_WORD (sizes plan) = KMER_BYTES plan + 2 /\
  TMER_WORD (sizes plan) = KMER_BYTES plan + 2.
Proof.
  intros Hplan HK Hfit.
  destruct (plan_sizes_fields _ _ _ _ _ _ Hplan) as [HB [_ [Hsizes _]]].
  assert (Hc : KMER_BYTES_of (KMER o) = cdiv (KMER o) 4)
    by (apply packed_bytes; assumption).
  pose proof (cdiv_spec (KMER o) 4 ltac:(lia)) as Hspec.
  change (2 ^ 31) with 2147483648 in Hfit.
  assert (Hw : wrap32 (KMER_BYTES_of (KMER o) + 2) = KMER_BYTES_of (KMER o) + 2).
  { apply wrap32_id. unfold int_range. change (2 ^ 31) with 2147483648. lia. }
  rewrite Hsizes, HB. cbn [layout KMER_WORD TMER_WORD]. unfold rsize_of.
  rewrite Hw, Hc. repeat split; lia.
Qed.

Lemma kmer_bytes_hold_the_kmer_witness :
  let b := block_of 1000000000 1000 10 in
  let env := env_of b 25 no_files 3 in
  let plan :=
    {| KMER_BYTES := 10; NPARTS := 10; MOD_LEN := 128; MOD_MSK := 127;
       MAX_SUPER := 25; sizes := layout 40 25 |} in
  KMER_BYTES plan = cdiv 40 4 /\ KMER_WORD (sizes plan) = 12.
Proof.
  intros b env plan.
  assert (Hrun : plan_sizes env (defaults env) b (start 256 1024)
                 = (Return plan, start 256 1024)) by (vm_compute; reflexivity).
  destruct (kmer_bytes_hold_the_kmer env (defaults env) b _ _ plan Hrun
              ltac:(simpl; lia) ltac:(simpl; lia)) as [Hb [_ [_ [Hw _]]]].
  split; [exact Hb | exact Hw].
Defined.

(** X2.  With K >= 1 and MAX_SUPER >= 1 (and 2 SMER + 7 inside an int),
    SMER is MAX_SUPER + K - 1, the bases of MAX_SUPER k-mers in a row;
    SMER_BYTES is the ceiling of SMER / 4, so a super-mer of m k-mers,
    1 <= m <= MAX_SUPER, fits at two bits a base; and SMER_WORD is
    SMER_BYTES + SLEN_BYTES, never less than the k-mer's own bytes plus
    one. *)
Theorem supermer_bytes_hold_the_supermer (env : Env) (o : Options)
    (b : DATA_BLOCK) (w w' : World) (plan : Plan) :
  plan_sizes env o b w = (Return plan, w') ->
  1 <= KMER o -> 1 <= MAX_SUPER plan ->
  (MAX_SUPER plan + KMER o - 1) * 2 + 7 < 2 ^ 31 ->
  SMER (sizes plan) = MAX_SUPER plan + KMER o - 1 /\
  SMER_BYTES (sizes plan) = cdiv (SMER (sizes plan)) 4 /\
  (forall m, 1 <= m <= MAX_SUPER plan ->
     2 * (m + KMER o - 1) <= 8 * SMER_BYTES (sizes plan)) /\
  SMER_WORD (sizes plan) = SMER_BYTES (sizes plan) + SLEN_BYTES (sizes plan) /\
  KMER_BYTES plan + 1 <= SMER_WORD (sizes plan).
Proof.
  intros Hplan HK Hsup Hfit.
  destruct (plan_sizes_fields _ _ _ _ _ _ Hplan) as [HB [HM [Hsizes _]]].
  rewrite HM in *. set (sup := Determine_Scheme env b) in *.
  change (2 ^ 31) with 2147483648 in Hfit.
  assert (Hint : forall z, 0 <= z < 2147483648 -> wrap32 z = z).
  { intros z Hz. apply wrap32_id. unfold int_range.
    change (2 ^ 31) with 2147483648. lia. }
  destruct (layout_length_field (KMER o) sup
              ltac:(change (2 ^ 31) with 2147483648; lia)) as [_ [HLB _]].
  destruct (SLEN_BITS_bit_length (KMER o) sup
              ltac:(change (2 ^ 31) with 2147483648; lia)) as [Hbits Hlog].
  assert (Hlen : 1 <= SLEN_BYTES (layout (KMER o) sup) <= 4).
  { rewrite HLB, Hbits.
    pose proof (Z.div_mod (Z.log2 sup + 1 + 7) 8 ltac:(lia)).
    pose proof (Z.mod_pos_bound (Z.log2 sup + 1 + 7) 8 ltac:(lia)). lia. }
  pose proof (cdiv_spec (sup + KMER o - 1) 4 ltac:(lia)) as Hspec.
  pose proof (cdiv_spec (KMER o) 4 ltac:(lia)) as HspecK.
  assert (HKB : KMER_BYTES_of (KMER o) = cdiv (KMER o) 4)
    by (apply packed_bytes; lia).
  rewrite Hsizes, HB, HKB.
  cbn [layout SMER SMER_BYTES SMER_WORD SLEN_BYTES] in *.
  rewrite (Hint (sup + KMER o)) by lia.
  rewrite (Hint (sup + KMER o - 1)) by lia.
  rewrite (packed_bytes (sup + KMER o - 1)) by lia.
  rewrite (Hint (cdiv _ 4 + _)) by lia.
  split; [reflexivity|]. split; [reflexivity|]. split; [|split].
  - intros m Hm. lia.
  - reflexivity.
  - lia.
Qed.

Lemma supermer_bytes_hold_the_supermer_witness :
  let b := block_of 1000000000 1000 10 in
  let env := env_of b 25 no_files 3 in
  let plan :=
    {| KMER_BYTES := 10; NPARTS := 10; MOD_LEN := 128; MOD_MSK := 127;
       MAX_SUPER := 25; sizes := layout 40 25 |} in
  SMER (sizes plan) = 25 + 40 - 1 /\ KMER_BYTES plan + 1 <= SMER_WORD (sizes plan).
Proof.
  intros b env plan.
  assert (Hrun : plan_sizes env (defaults env) b (start 256 1024)
                 = (Return plan, start 256 1024)) by (vm_compute; reflexivity).
  destruct (supermer_bytes_hold_the_supermer env (defaults env) b _ _ plan Hrun
              ltac:(simpl; lia) ltac:(simpl; lia) ltac:(simpl; lia))
    as [Hs [_ [_ [_ Hw]]]].
  split; [exact Hs | exact Hw].
Defined.

(** X3.  With MAX_SUPER in 1 .. 2^31-1, every super-mer length v from 0
    to MAX_SUPER passes SLEN_BIT_MASK unchanged and is below
    256^SLEN_BYTES, and the mask itself fits SLEN_BYTES bytes, which are
    1 to 4: the length field loses nothing. *)
Theorem length_field_loses_nothing (env : Env) (o : Options) (b : DATA_BLOCK)
    (w w' : World) (plan : Plan) :
  plan_sizes env o b w = (Return plan, w') ->
  1 <= MAX_SUPER plan < 2 ^ 31 ->
  (forall v, 0 <= v <= MAX_SUPER plan ->
     Z.land v (SLEN_BIT_MASK (sizes plan)) = v /\
     v < 2 ^ (8 * SLEN_BYTES (sizes plan))) /\
  SLEN_BIT_MASK (sizes plan) < 2 ^ (8 * SLEN_BYTES (sizes plan)) /\
  1 <= SLEN_BYTES (sizes plan) <= 4.
Proof.
  intros Hplan Hsup.
  destruct (plan_sizes_fields _ _ _ _ _ _ Hplan) as [_ [HM [Hsizes _]]].
  rewrite HM in *. rewrite Hsizes. set (sup := Determine_Scheme env b) in *.
  destruct (layout_length_field (KMER o) sup Hsup) as [Hmask [Hbytes _]].
  destruct (SLEN_BITS_bit_length (KMER o) sup Hsup) as [Hbits Hlog].
  set (bits := SLEN_BITS (layout (KMER o) sup)) in *.
  assert (Hb : 1 <= bits <= 31) by lia.
  pose proof (Z.div_mod (bits + 7) 8 ltac:(lia)) as Hdm.
  pose proof (Z.mod_pos_bound (bits + 7) 8 ltac:(lia)) as Hmod.
  assert (Hwide : bits <= 8 * SLEN_BYTES (layout (KMER o) sup)) by lia.
  assert (Hpow : 2 ^ bits <= 2 ^ (8 * SLEN_BYTES (layout (KMER o) sup)))
    by (apply Z.pow_le_mono_r; lia).
  assert (Hlt : sup < 2 ^ bits).
  { rewrite Hbits. apply Z.log2_lt_pow2; lia. }
  split; [|split].
  - intros v Hv. split; [|lia].
    rewrite Hmask, Z.land_ones by lia. apply Z.mod_small. lia.
  - rewrite Hmask, Z.ones_equiv. lia.
  - lia.
Qed.

Lemma length_field_loses_nothing_witness :
  let b := block_of 1000000000 1000 10 in
  let env := env_of b 25 no_files 3 in
  let plan :=
    {| KMER_BYTES := 10; NPARTS := 10; MOD_LEN := 128; MOD_MSK := 127;
       MAX_SUPER := 25; sizes := layout 40 25 |} in
  Z.land 25 (SLEN_BIT_MASK (sizes plan)) = 25 /\
  1 <= SLEN_BYTES (sizes plan) <= 4.
Proof.
  intros b env plan.
  assert (Hrun : plan_sizes env (defaults env) b (start 256 1024)
                 = (Return plan, start 256 1024)) by (vm_compute; reflexivity).
  destruct (length_field_loses_nothing env (defaults env) b _ _ plan Hrun
              ltac:(simpl; lia)) as [Hv [_ Hlen]].
  split; [exact (proj1 (Hv 25 ltac:(simpl; lia))) | exact Hlen].
Defined.

(** X4.  With MAX_SUPER in 1 .. 2^31-1, PLEN_BYTES bytes hold one bit
    more than the length field has: 2^(SLEN_BITS+1) <= 256^PLEN_BYTES.
    PLEN_BYTES is SLEN_BYTES, or SLEN_BYTES + 1 when SLEN_BITS is a
    multiple of 8. *)
Theorem profile_length_has_a_spare_bit (env : Env) (o : Options)
    (b : DATA_BLOCK) (w w' : World) (plan : Plan) :
  plan_sizes env o b w = (Return plan, w') ->
  1 <= MAX_SUPER plan < 2 ^ 31 ->
  2 ^ (SLEN_BITS (sizes plan) + 1) <= 2 ^ (8 * PLEN_BYTES (sizes plan)) /\
  (SLEN_BITS (sizes plan) mod 8 = 0 ->
   PLEN_BYTES (sizes plan) = SLEN_BYTES (sizes plan) + 1) /\
  (SLEN_BITS (sizes plan) mod 8 <> 0 ->
   PLEN_BYTES (sizes plan) = SLEN_BYTES (sizes plan)).
Proof.
  intros Hplan Hsup.
  destruct (plan_sizes_fields _ _ _ _ _ _ Hplan) as [_ [HM [Hsizes _]]].
  rewrite HM in *. rewrite Hsizes. set (sup := Determine_Scheme env b) in *.
  destruct (layout_length_field (KMER o) sup Hsup) as [_ [Hbytes Hplen]].
  destruct (SLEN_BITS_bit_length (KMER o) sup Hsup) as [Hbits Hlog].
  set (bits := SLEN_BITS (layout (KMER o) sup)) in *.
  assert (Hb : 1 <= bits <= 31) by lia.
  pose proof (Z.div_mod bits 8 ltac:(lia)) as Hdm.
  pose proof (Z.mod_pos_bound bits 8 ltac:(lia)) as Hmod.
  assert (H8 : (bits + 8) / 8 = bits / 8 + 1).
  { replace (bits + 8) with (bits + 1 * 8) by lia. apply Z.div_add. lia. }
  assert (H7 : (bits + 7) / 8 = bits / 8 + (if bits mod 8 =? 0 then 0 else 1)).
  { pose proof (Z.div_mod (bits + 7) 8 ltac:(lia)).
    pose proof (Z.mod_pos_bound (bits + 7) 8 ltac:(lia)).
    destruct (Z.eqb_spec (bits mod 8) 0); lia. }
  rewrite Hplen, Hbytes, H8, H7. split; [|split].
  - apply Z.pow_le_mono_r; lia.
  - intros E. rewrite E. cbn. lia.
  - intros E. destruct (Z.eqb_spec (bits mod 8) 0); [contradiction|lia].
Qed.

Lemma profile_length_has_a_spare_bit_witness :
  let b := block_of 1000000000 1000 10 in
  let env := env_of b 25 no_files 3 in
  let plan :=
    {| KMER_BYTES := 10; NPARTS := 10; MOD_LEN := 128; MOD_MSK := 127;
       MAX_SUPER := 25; sizes := layout 40 25 |} in
  2 ^ (SLEN_BITS (sizes plan) + 1) <= 2 ^ (8 * PLEN_BYTES (sizes plan)).
Proof.
  intros b env plan.
  assert (Hrun : plan_sizes env (defaults env) b (start 256 1024)
                 = (Return plan, start 256 1024)) by (vm_compute; reflexivity).
  exact (proj1 (profile_length_has_a_spare_bit env (defaults env) b _ _ plan
                  Hrun ltac:(simpl; lia))).
Defined.

Section Ring_use.

Lemma minimizer_ring_value K :
  1 <= K <= 2 ^ 29 ->
  minimizer_ring K
  = Some (2 ^ (Z.log2_up K + 1), 2 ^ (Z.log2_up K + 1) - 1) /\
  0 <= Z.log2_up K <= 29.
Proof.
  intros HK. set (n := Z.log2_up K).
  assert (Hn0 : 0 <= n) by apply Z.log2_up_nonneg.
  assert (Hn : n <= 29) by (apply Z.log2_up_le_pow2; lia).
  split; [|lia].
  unfold minimizer_ring. change 1 with (2 ^ 0) at 1.
  rewrite (mod_len_loop_climbs K n) by (simpl; lia).
  rewrite shiftl_pow2 by lia.
  pose proof (pow2_int_range (n + 1) ltac:(lia)) as R.
  rewrite wrap32_id by exact R. unfold int_range in R.
  rewrite wrap32_id by (unfold int_range; lia). reflexivity.
Qed.

End Ring_use.

(** X5.  For K in 1 .. 2^29 the ring has more than K and fewer than 4K
    slots; masking a position i >= 0 with MOD_MSK is i modulo MOD_LEN, so
    it is a slot of the ring; and two of any K+1 positions in a row never
    share a slot. *)
Theorem ring_slots_of_a_window_differ (env : Env) (o : Options)
    (b : DATA_BLOCK) (w w' : World) (plan : Plan) :
  plan_sizes env o b w = (Return plan, w') ->
  1 <= KMER o <= 2 ^ 29 ->
  KMER o < MOD_LEN plan < 4 * KMER o /\
  (forall i, 0 <= i ->
     Z.land i (MOD_MSK plan) = i mod MOD_LEN plan /\
     0 <= Z.land i (MOD_MSK plan) < MOD_LEN plan) /\
  (forall i j, 0 <= i <= j -> j <= i + KMER o ->
     Z.land i (MOD_MSK plan) = Z.land j (MOD_MSK plan) -> i = j).
Proof.
  intros Hplan HK.
  destruct (plan_sizes_fields _ _ _ _ _ _ Hplan) as [_ [_ [_ [Hring _]]]].
  destruct (minimizer_ring_value (KMER o) HK) as [Hval Hn].
  rewrite Hval in Hring. injection Hring as Hlen Hmsk.
  set (n := Z.log2_up (KMER o)) in *.
  assert (Hge : KMER o <= 2 ^ n) by (apply Z.log2_up_le_pow2; lia).
  assert (Hpos : 0 < 2 ^ n) by (apply Z.pow_pos_nonneg; lia).
  assert (Hdouble : 2 ^ (n + 1) = 2 * 2 ^ n).
  { rewrite Z.pow_add_r by lia. lia. }
  assert (Hlt : 2 ^ n < 2 * KMER o).
  { destruct (Z.eq_dec n 0) as [E|E].
    - rewrite E. change (2 ^ 0) with 1. lia.
    - assert (2 ^ (n - 1) < KMER o) by (apply Z.log2_up_lt_pow2; lia).
      replace n with (n - 1 + 1) at 1 by lia.
      rewrite Z.pow_add_r by lia. lia. }
  assert (Hmask : forall i, 0 <= i -> Z.land i (MOD_MSK plan) = i mod MOD_LEN plan).
  { intros i Hi. rewrite <- Hmsk, <- Hlen.
    replace (2 ^ (n + 1) - 1) with (Z.ones (n + 1))
      by (rewrite Z.ones_equiv; lia).
    apply Z.land_ones. lia. }
  rewrite <- Hlen in *. split; [lia|]. split.
  - intros i Hi. rewrite (Hmask i Hi). split; [reflexivity|].
    apply Z.mod_pos_bound. lia.
  - intros i j Hij Hwin Hsame.
    rewrite (Hmask i), (Hmask j) in Hsame by lia.
    pose proof (Z.div_mod i (2 ^ (n + 1)) ltac:(lia)).
    pose proof (Z.div_mod j (2 ^ (n + 1)) ltac:(lia)).
    pose proof (Z.mod_pos_bound i (2 ^ (n + 1)) ltac:(lia)).
    assert (j / 2 ^ (n + 1) = i / 2 ^ (n + 1)); [nia|]. lia.
Qed.

Lemma ring_slots_of_a_window_differ_witness :
  let b := block_of 1000000000 1000 10 in
  let env := env_of b 25 no_files 3 in
  let plan :=
    {| KMER_BYTES := 10; NPARTS := 10; MOD_LEN := 128; MOD_MSK := 127;
       MAX_SUPER := 25; sizes := layout 40 25 |} in
  40 < MOD_LEN plan < 4 * 40 /\ Z.land 1000 (MOD_MSK plan) = 1000 mod MOD_LEN plan.
Proof.
  intros b env plan.
  assert (Hrun : plan_sizes env (defaults env) b (start 256 1024)
                 = (Return plan, start 256 1024)) by (vm_compute; reflexivity).
  destruct (ring_slots_of_a_window_differ env (defaults env) b _ _ plan Hrun
              ltac:(simpl; lia)) as [Hlen [Hmask _]].
  split; [exact Hlen | exact (proj1 (Hmask 1000 ltac:(lia)))].
Defined.

(** X6.  When nothing overflows and the block has totlen >= 0, the
    planner dies for too short sequences exactly when
    2 totlen + 3 <= 3 KMER nreads.  So a block it turns down has reads
    that average less than 1.5 KMER, as the message says, and a block
    whose reads average 1.5 KMER or more is never turned down. *)
Theorem too_short_message_is_true (env : Env) (o : Options) (b : DATA_BLOCK)
    (w : World) :
  0 <= totlen b ->
  int_range (KMER o * nreads b) ->
  int64_range (totlen b - KMER o * nreads b) ->
  (plan_sizes env o b w = (Exit 1, emit (Stderr Sequences_too_short) w)
   <-> 2 * totlen b + 3 <= 3 * (KMER o * nreads b)) /\
  (plan_sizes env o b w = (Exit 1, emit (Stderr Sequences_too_short) w) ->
   2 * totlen b < 3 * (KMER o * nreads b)) /\
  (3 * (KMER o * nreads b) <= 2 * totlen b ->
   too_short (KMER o) b = false).
Proof.
  intros Htot H32 H64.
  pose proof (too_short_exact (KMER o) b H32 H64) as Hexact.
  rewrite Z.quot_div_nonneg in Hexact by lia.
  pose proof (Z.div_mod (totlen b) 3 ltac:(lia)) as Hdm.
  pose proof (Z.mod_pos_bound (totlen b) 3 ltac:(lia)) as Hmod.
  assert (Hiff : too_short (KMER o) b = true
                 <-> 2 * totlen b + 3 <= 3 * (KMER o * nreads b)).
  { rewrite Hexact. rewrite Z.ltb_lt. lia. }
  assert (Hdies : plan_sizes env o b w
                    = (Exit 1, emit (Stderr Sequences_too_short) w)
                  <-> too_short (KMER o) b = true).
  { unfold plan_sizes. destruct (too_short (KMER o) b).
    - split; reflexivity.
    - split; [|discriminate].
      destruct (minimizer_ring (KMER o)) as [[len msk]|]; discriminate. }
  split; [|split].
  - rewrite Hdies. exact Hiff.
  - intros H. apply Hdies, Hiff in H. lia.
  - intros H. destruct (too_short (KMER o) b); [|reflexivity].
    pose proof (proj1 Hiff eq_refl). lia.
Qed.

Lemma too_short_message_is_true_witness :
  let b := block_of 3000000 100000 10 in
  let env := env_of b 25 no_files 3 in
  plan_sizes env (defaults env) b (start 256 1024)
    = (Exit 1, emit (Stderr Sequences_too_short) (start 256 1024))
  <-> 2 * 3000000 + 3 <= 3 * (40 * 100000).
Proof.
  intros b env.
  exact (proj1 (too_short_message_is_true env (defaults env) b (start 256 1024)
                  ltac:(simpl; lia)
                  ltac:(vm_compute; split; congruence)
                  ltac:(vm_compute; split; congruence))).
Defined.

(** * Further properties of the option loop *)

Section Option_loop_facts.

Variable env : Env.

(** What every accepted option keeps is kept by the loop. *)
Lemma option_loop_invariant (P : Options -> Prop) args :
  (forall arg o w o' w',
     In arg args -> is_option arg = true ->
     option_arg env arg o w = (Return o', w') -> P o -> P o') ->
  forall o sources w o' sources' w',
    option_loop env args o sources w = (Return (o', sources'), w') ->
    P o -> P o'.
Proof.
  induction args as [|arg args IH]; intros Hstep o sources w o' sources' w' Hrun HP.
  - injection Hrun as <- _ _. exact HP.
  - cbn [option_loop] in Hrun. destruct (is_option arg) eqn:Hopt.
    + unfold bind in Hrun.
      destruct (option_arg env arg o w) as [[o1| |] w1] eqn:E; try discriminate.
      refine (IH _ _ _ _ _ _ _ Hrun _).
      * intros a; intros. eapply Hstep; eauto. right. assumption.
      * eapply Hstep; eauto. left. reflexivity.
    + refine (IH _ _ _ _ _ _ _ Hrun HP).
      intros a; intros. eapply Hstep; eauto. right. assumption.
Qed.

(** The sources are the arguments without a dash, in their order. *)
Lemma option_loop_sources args : forall o sources w o' sources' w',
  option_loop env args o sources w = (Return (o', sources'), w') ->
  sources' = (sources ++ sources_of args)%list.
Proof.
  induction args as [|arg args IH]; intros o sources w o' sources' w' Hrun.
  - injection Hrun as _ <- _. symmetry. apply app_nil_r.
  - cbn [option_loop] in Hrun. unfold sources_of. cbn [filter].
    destruct (is_option arg) eqn:Hopt; cbn [negb].
    + unfold bind in Hrun.
      destruct (option_arg env arg o w) as [[o1| |] w1]; try discriminate.
      eapply IH. exact Hrun.
    + rewrite (IH _ _ _ _ _ _ Hrun). rewrite <- app_assoc. reflexivity.
Qed.

Lemma read_options_returns args w o sources w' :
  read_options env args w = (Return (o, sources), w') ->
  w' = w /\
  exists o0,
    option_loop env args (defaults env) [] w = (Return (o0, sources), w) /\
    o = apply_flags o0 /\ PRO_THREADS o0 <= 0 /\ sources <> [].
Proof.
  intros Hrun.
  assert (w' = w) by (eapply quiet_returns; [apply quiet_read_options|exact Hrun]).
  subst w'. split; [reflexivity|].
  unfold read_options in Hrun. unfold bind at 1 in Hrun.
  destruct (quiet_option_loop env args (defaults env) [] w)
    as [[[o0 s0] E]|[[d E]|[Hh _]]]; [| |discriminate]; rewrite E in Hrun;
    [|discriminate].
  cbn [fst snd] in Hrun. unfold bind, check_stub in Hrun.
  destruct (apply_flags_keeps o0) as [_ [Hthreads _]]. rewrite Hthreads in Hrun.
  destruct (Z.ltb_spec 0 (PRO_THREADS o0)) as [?|Hle].
  - destruct (promer (apply_flags o0) =? KMER (apply_flags o0)); discriminate.
  - unfold ret in Hrun.
    destruct (wrap32 (1 + Z.of_nat (List.length s0)) <? 2) eqn:Hargc;
      [discriminate|].
    injection Hrun as <- <-. exists o0. repeat split; try assumption.
    intros ->. discriminate.
Qed.

Lemma sample_returns_options args w s w' :
  sample env args w = (Return s, w') ->
  exists o sources path,
    read_options env args w = (Return (o, sources), w) /\
    scratch_path env (SORT_PATH o) w = (Return path, w) /\
    opts s = set_SORT_PATH path o /\
    block s = Get_First_Block env (Partition_Input env sources) 1000000000.
Proof.
  intros Hrun. unfold sample in Hrun. unfold bind at 1 in Hrun.
  destruct (quiet_read_options env args w) as [[[o srcs] E]|[[d E]|[Hh _]]];
    [| |discriminate]; rewrite E in Hrun; [|discriminate].
  cbn [fst snd] in Hrun. unfold bind in Hrun.
  destruct (quiet_scratch_path env (SORT_PATH o) w) as [[path P]|[[d P]|[Hh _]]];
    [| |discriminate]; rewrite P in Hrun; [|discriminate].
  unfold ret in Hrun. injection Hrun as <- _.
  exists o, srcs, path. repeat split; assumption.
Qed.

(** Line 283: without a source the usage is printed. *)
Lemma main_without_sources args w o :
  option_loop env args (defaults env) [] w = (Return (o, []), w) ->
  PRO_THREADS o <= 0 ->
  main env args w = (Exit 1, emit (Stderr Usage) w).
Proof.
  intros Hloop Hthreads.
  unfold main, sample, read_options. unfold bind at 1 2 3 4. rewrite Hloop.
  cbn [fst snd]. unfold bind at 1. unfold check_stub.
  destruct (apply_flags_keeps o) as [_ [-> _]].
  destruct (Z.ltb_spec 0 (PRO_THREADS o)) as [?|_]; [lia|]. reflexivity.
Qed.

End Option_loop_facts.

(** X7.  The sources that main hands to Partition_Input are the arguments
    that do not start with a dash, in the order of the command line,
    wherever the options stand among them; a run that gets to sample the
    input has one source at least. *)
Theorem sources_are_the_plain_arguments (env : Env) (args : list string)
    (w w' : World) (s : Sampled) :
  sample env args w = (Return s, w') ->
  sources_of args <> [] /\
  block s
  = Get_First_Block env (Partition_Input env (sources_of args)) 1000000000 /\
  (OUT_NAME (opts s) = None ->
   root s = First_Root env (Partition_Input env (sources_of args)) /\
   pwd s = First_Pwd env (Partition_Input env (sources_of args))).
Proof.
  intros Hrun.
  destruct (sample_returns_options env args w s w' Hrun)
    as [o [sources [path [Hread [Hpath [Hopts Hblock]]]]]].
  destruct (read_options_returns env args w o sources w Hread)
    as [_ [o0 [Hloop [_ [_ Hne]]]]].
  pose proof (option_loop_sources env args _ _ _ _ _ _ Hloop) as Hs.
  cbn [app] in Hs. subst sources.
  split; [exact Hne|]. split; [exact Hblock|].
  intros Hname. unfold sample in Hrun. unfold bind at 1 in Hrun.
  rewrite Hread in Hrun. cbn [fst snd] in Hrun. unfold bind in Hrun.
  rewrite Hpath in Hrun. unfold ret in Hrun. injection Hrun as <- _.
  cbn [opts root pwd OUT_NAME set_SORT_PATH] in *.
  rewrite Hname. split; reflexivity.
Qed.

Lemma sources_are_the_plain_arguments_witness :
  let b := block_of 1000000000 1000 10 in
  let env := env_of b 25 no_files 3 in
  sources_of ["a.fa"; "-k21"; "b.fa"; "-T8"]%string = ["a.fa"; "b.fa"]%string /\
  sources_of ["a.fa"; "-k21"; "b.fa"; "-T8"]%string <> [].
Proof.
  intros b env.
  pose (s := {| opts := set_SORT_PATH "/tmp"
                          (set_NTHREADS 8 (set_KMER 21 (defaults env)));
                Driver.root := "reads"; pwd := "."; block := b |}).
  assert (Hs : sample env ["a.fa"; "-k21"; "b.fa"; "-T8"]%string (start 256 1024)
               = (Return s, start 256 1024)) by (vm_compute; reflexivity).
  split; [reflexivity|].
  exact (proj1 (sources_are_the_plain_arguments env _ _ _ s Hs)).
Defined.

(** X8.  A command line without a source never gets to sample the input:
    main exits with code 1 after one message.  When its options are all
    accepted and none is a stub option that message is the usage; with no
    argument at all it is the usage. *)
Theorem no_source_no_run (env : Env) (args : list string) (w : World) :
  sources_of args = [] ->
  (exists d, main env args w = (Exit 1, emit (Stderr d) w)) /\
  (forall o sources w',
     option_loop env args (defaults env) [] w = (Return (o, sources), w') ->
     PRO_THREADS o <= 0 ->
     main env args w = (Exit 1, emit (Stderr Usage) w)) /\
  main env [] w = (Exit 1, emit (Stderr Usage) w).
Proof.
  intros Hnone.
  assert (Husage : forall o sources w',
            option_loop env args (defaults env) [] w = (Return (o, sources), w') ->
            PRO_THREADS o <= 0 ->
            main env args w = (Exit 1, emit (Stderr Usage) w)).
  { intros o sources w' Hloop Hthreads.
    assert (w' = w) by (eapply quiet_returns; [apply quiet_option_loop|exact Hloop]).
    subst w'.
    pose proof (option_loop_sources env args _ _ _ _ _ _ Hloop) as Hs.
    rewrite Hnone in Hs. cbn [app] in Hs. subst sources.
    apply (main_without_sources env args w o Hloop Hthreads). }
  split; [|split].
  - destruct (quiet_option_loop env args (defaults env) [] w)
      as [[[o sources] E]|[[d E]|[Hh _]]]; [| |discriminate].
    + destruct (Z_lt_le_dec 0 (PRO_THREADS o)) as [Hpos|Hle].
      * eexists. apply (main_checks_stub env args w o sources E Hpos).
      * exists Usage. apply (Husage o sources w E Hle).
    + exists d. apply main_dies_in_option_loop. exact E.
  - exact Husage.
  - apply (main_without_sources env [] w (defaults env)); [reflexivity|].
    cbn. lia.
Qed.

Lemma no_source_no_run_witness :
  let env := env_of (block_of 1000000000 1000 10) 25 no_files 3 in
  main env ["-k21"; "-v"]%string (start 256 1024)
  = (Exit 1, emit (Stderr Usage) (start 256 1024)).
Proof.
  intros env.
  destruct (no_source_no_run env ["-k21"; "-v"]%string (start 256 1024) eq_refl)
    as [_ [Husage _]].
  refine (Husage (set_flags (store 118 1 (repeat 0 128)) (set_KMER 21 (defaults env)))
            [] (start 256 1024) _ _).
  - vm_compute. reflexivity.
  - vm_compute. discriminate.
Defined.

Section Option_frames.

Variable env : Env.

Ltac option_cases :=
  unfold option_arg, stub_arg, arg_flags, macro, bind, ret, die; cbv zeta;
  repeat match goal with
         | |- context [if ?b then _ else _] => destruct b eqn:?
         end;
  repeat match goal with
         | |- context [match ?x with _ => _ end] => destruct x eqn:?
         end.

(** An option changes the setting of its own letter only. *)
Lemma option_arg_frame arg o w o' w' :
  option_arg env arg o w = (Return o', w') ->
  ((at_ arg 1 =? "k")%char = false -> KMER o' = KMER o) /\
  ((at_ arg 1 =? "T")%char = false -> NTHREADS o' = NTHREADS o) /\
  ((at_ arg 1 =? "M")%char = false -> SORT_MEMORY o' = SORT_MEMORY o) /\
  ((at_ arg 1 =? "P")%char = false -> SORT_PATH o' = SORT_PATH o) /\
  ((at_ arg 1 =? "b")%char = false -> BC_PREFIX o' = BC_PREFIX o) /\
  ((at_ arg 1 =? "N")%char = false -> OUT_NAME o' = OUT_NAME o).
Proof.
  option_cases; intros Hrun; try discriminate;
    injection Hrun as <- _;
    repeat split; intros Hne; try reflexivity; discriminate.
Qed.

Lemma apply_flags_frame o :
  KMER (apply_flags o) = KMER o /\
  NTHREADS (apply_flags o) = NTHREADS o /\
  SORT_MEMORY (apply_flags o) = SORT_MEMORY o /\
  SORT_PATH (apply_flags o) = SORT_PATH o /\
  BC_PREFIX (apply_flags o) = BC_PREFIX o /\
  OUT_NAME (apply_flags o) = OUT_NAME o /\
  flags (apply_flags o) = flags o /\
  DO_TABLE (apply_flags o) = (if flag (flags o) "t" =? 0 then DO_TABLE o else 4).
Proof.
  unfold apply_flags, set_VERBOSE, set_COMPRESS. cbv zeta. cbn [flags].
  destruct (flag (flags o) "t" =? 0); unfold set_DO_TABLE; cbn [flags];
    destruct (flag (flags o) "p" =? 0); repeat split; reflexivity.
Qed.

Lemma has_option_in c args arg :
  has_option c args = false -> In arg args -> is_option arg = true ->
  (at_ arg 1 =? c)%char = false.
Proof.
  unfold has_option. intros Hnone Hin Hopt.
  destruct (at_ arg 1 =? c)%char eqn:E; [|reflexivity].
  assert (existsb (fun a => is_option a && (at_ a 1 =? c)%char) args = true);
    [|congruence].
  apply existsb_exists. exists arg. rewrite Hopt, E. split; [exact Hin|reflexivity].
Qed.

(** A setting whose letter is in no option is as the loop found it. *)
Lemma option_loop_frame {A} (field : Options -> A) c args :
  (forall arg o w o' w',
     option_arg env arg o w = (Return o', w') ->
     (at_ arg 1 =? c)%char = false -> field o' = field o) ->
  has_option c args = false ->
  forall o sources w o' sources' w',
    option_loop env args o sources w = (Return (o', sources'), w') ->
    field o' = field o.
Proof.
  intros Hframe Hnone o sources w o' sources' w' Hrun.
  apply (option_loop_invariant env (fun o1 => field o1 = field o) args)
    with (o := o) (sources := sources) (w := w) (sources' := sources') (w' := w');
    [|exact Hrun|reflexivity].
  intros arg o1 w1 o2 w2 Hin Hopt Harg Hsame.
  rewrite <- Hsame. eapply Hframe; [exact Harg|].
  eapply has_option_in; eassumption.
Qed.

(** An option that dies ends the run as it ends the loop. *)
Lemma main_dies_at_option pre arg post w o1 sources1 code w1 :
  option_loop env pre (defaults env) [] w = (Return (o1, sources1), w) ->
  is_option arg = true ->
  option_arg env arg o1 w = (Exit code, w1) ->
  main env (pre ++ arg :: post)%list w = (Exit code, w1).
Proof.
  intros Hpre Hopt Hdie. apply main_dies_in_option_loop.
  rewrite option_loop_app, Hpre. cbn [fst snd option_loop]. rewrite Hopt.
  unfold bind. rewrite Hdie. reflexivity.
Qed.

End Option_frames.

(** X9.  The settings that no option touches have the values that the
    usage line gives: k-mer length 40, 4 threads, 12 GB of sort memory,
    scratch directory /tmp, no bar code prefix, no output name.  And
    DO_TABLE is 4 whenever the flag t is up, whatever a [-t<int>] said. *)
Theorem defaults_are_those_of_the_usage (env : Env) (args : list string)
    (w w' : World) (o : Options) (sources : list string) :
  read_options env args w = (Return (o, sources), w') ->
  (has_option "k" args = false -> KMER o = 40) /\
  (has_option "T" args = false -> NTHREADS o = 4) /\
  (has_option "M" args = false -> SORT_MEMORY o = 12 * 1000000000) /\
  (has_option "P" args = false -> SORT_PATH o = "/tmp"%string) /\
  (has_option "b" args = false -> BC_PREFIX o = 0) /\
  (has_option "N" args = false -> OUT_NAME o = None) /\
  (flag (flags o) "t" <> 0 -> DO_TABLE o = 4).
Proof.
  intros Hread.
  destruct (read_options_returns env args w o sources w' Hread)
    as [_ [o0 [Hloop [-> _]]]].
  destruct (apply_flags_frame o0) as [-> [-> [-> [-> [-> [-> [-> ->]]]]]]].
  assert (Hframe : forall {A} (field : Options -> A) c,
            (forall arg o1 w1 o2 w2,
               option_arg env arg o1 w1 = (Return o2, w2) ->
               (at_ arg 1 =? c)%char = false -> field o2 = field o1) ->
            has_option c args = false -> field o0 = field (defaults env)).
  { intros A field c Hf Hnone.
    exact (option_loop_frame env field c args Hf Hnone _ _ _ _ _ _ Hloop). }
  repeat split.
  - apply (Hframe _ KMER). intros. eapply option_arg_frame; eassumption.
  - apply (Hframe _ NTHREADS). intros.
    eapply (proj1 (proj2 (option_arg_frame _ _ _ _ _ _ H))); assumption.
  - apply (Hframe _ SORT_MEMORY). intros.
    eapply (proj1 (proj2 (proj2 (option_arg_frame _ _ _ _ _ _ H)))); assumption.
  - apply (Hframe _ SORT_PATH). intros.
    eapply (proj1 (proj2 (proj2 (proj2 (option_arg_frame _ _ _ _ _ _ H)))));
      assumption.
  - apply (Hframe _ BC_PREFIX). intros.
    eapply (proj1 (proj2 (proj2 (proj2 (proj2
              (option_arg_frame _ _ _ _ _ _ H)))))); assumption.
  - apply (Hframe _ OUT_NAME). intros.
    eapply (proj2 (proj2 (proj2 (proj2 (proj2
              (option_arg_frame _ _ _ _ _ _ H)))))); assumption.
  - intros Ht. destruct (Z.eqb_spec (flag (flags o0) "t") 0);
      [contradiction|reflexivity].
Qed.

Lemma defaults_are_those_of_the_usage_witness :
  let env := env_of (block_of 1000000000 1000 10) 25 no_files 3 in
  let o := set_DO_TABLE 4
             (set_flags (store 116 1 (repeat 0 128))
                (set_DO_TABLE 10 (defaults env))) in
  KMER o = 40 /\ NTHREADS o = 4 /\ DO_TABLE o = 4.
Proof.
  intros env o.
  assert (Hread : read_options env ["-t10"; "-t"; "reads.fa"]%string (start 256 1024)
                  = (Return (o, ["reads.fa"%string]), start 256 1024))
    by (vm_compute; reflexivity).
  destruct (defaults_are_those_of_the_usage env _ _ _ o _ Hread)
    as [Hk [HT [_ [_ [_ [_ Ht]]]]]].
  split; [exact (Hk eq_refl)|]. split; [exact (HT eq_refl)|].
  apply Ht. vm_compute. discriminate.
Defined.

(** X10.  An option that starts with [-b] and does not go on with [c] is
    turned down: after the options before it are accepted, main exits
    with code 1 and says that the argument is not legal. *)
Theorem barcode_option_is_spelled_bc (env : Env) (pre post : list string)
    (arg : string) (w : World) (o1 : Options) (sources1 : list string) :
  option_loop env pre (defaults env) [] w = (Return (o1, sources1), w) ->
  is_option arg = true ->
  at_ arg 1 = "b"%char -> at_ arg 2 <> "c"%char ->
  main env (pre ++ arg :: post)%list w
  = (Exit 1, emit (Stderr (Not_a_legal_argument arg)) w).
Proof.
  intros Hpre Hopt Hb Hc.
  apply (main_dies_at_option env pre arg post w o1 sources1 _ _ Hpre Hopt).
  unfold option_arg. cbv zeta. rewrite Hb. cbn [Ascii.eqb Bool.eqb andb].
  destruct (Ascii.eqb_spec (at_ arg 2) "c") as [?|_]; [contradiction|].
  reflexivity.
Qed.

Lemma barcode_option_is_spelled_bc_witness :
  let env := env_of (block_of 1000000000 1000 10) 25 no_files 3 in
  main env ["-k21"; "-b5"; "reads.fa"]%string (start 256 1024)
  = (Exit 1, emit (Stderr (Not_a_legal_argument "-b5")) (start 256 1024)).
Proof.
  intros env.
  assert (Hpre : option_loop env ["-k21"%string] (defaults env) [] (start 256 1024)
                 = (Return (set_KMER 21 (defaults env), []), start 256 1024))
    by (vm_compute; reflexivity).
  refine (barcode_option_is_spelled_bc env _ ["reads.fa"%string] "-b5" _ _ _
            Hpre eq_refl eq_refl _).
  vm_compute. discriminate.
Defined.

Section Stub_edges.

Variable env : Env.

(** [fread] at the end of a file leaves the variable as it was. *)
Lemma fread_int_at_end o var : int_range var -> fread_int o var [] = (var, []).
Proof.
  intros Hvar. unfold fread_int. cbn [firstn skipn List.length app].
  rewrite int_of_int_bytes by exact Hvar. reflexivity.
Qed.

Lemma fread_int_rest o var f :
  (List.length f <= 4)%nat -> snd (fread_int o var f) = [].
Proof. intros Hlen. unfold fread_int. cbn [snd]. apply skipn_all2. exact Hlen. Qed.

(** Before the first stub option PRO_THREADS is still 0. *)
Lemma no_stub_no_threads pre w o1 sources1 w1 :
  Forall (fun a => is_stub_option a = false) pre ->
  option_loop env pre (defaults env) [] w = (Return (o1, sources1), w1) ->
  PRO_THREADS o1 = 0.
Proof.
  intros Hpre Hrun.
  exact (proj2 (option_loop_keeps_stub env pre _ _ _ _ _ _ Hpre Hrun)).
Qed.

End Stub_edges.

(** X11.  A [-p:<table>] whose stub file does not open ends the run:
    after the options before it are accepted, main exits with code 1 and
    says that it cannot find the stub, whatever follows on the command
    line. *)
Theorem missing_stub_ends_the_run (env : Env) (pre post : list string)
    (table : string) (w : World) (o1 : Options) (sources1 : list string) :
  option_loop env pre (defaults env) [] w = (Return (o1, sources1), w) ->
  fopen env (stub_file env table) = None ->
  main env (pre ++ stub_option table :: post)%list w
  = (Exit 1,
     emit (Stderr (Cannot_find_stub (Root env table (Some ".ktab"%string)))) w).
Proof.
  intros Hpre Hf.
  apply (main_dies_at_option env pre (stub_option table) post w o1 sources1
           _ _ Hpre eq_refl).
  rewrite option_arg_stub. unfold stub_arg. unfold stub_file in Hf.
  rewrite Hf. reflexivity.
Qed.

Lemma missing_stub_ends_the_run_witness :
  let env := env_of (block_of 1000000000 1000 10) 25 no_files 3 in
  main env ["-p:small"; "reads.fa"]%string (start 256 1024)
  = (Exit 1, emit (Stderr (Cannot_find_stub "small")) (start 256 1024)).
Proof.
  intros env.
  exact (missing_stub_ends_the_run env [] ["reads.fa"%string] "small"
           (start 256 1024) (defaults env) [] eq_refl eq_refl).
Defined.

(** X12.  A first [-p:<table>] whose stub has four bytes or fewer, an
    empty stub among them, ends the run: the count of hidden files is
    not read and is still 0, and main exits with code 1 saying that the
    table has no hidden files. *)
Theorem short_stub_ends_the_run (env : Env) (pre post : list string)
    (table : string) (w : World) (o1 : Options) (sources1 : list string)
    (f : list byte) :
  Forall (fun a => is_stub_option a = false) pre ->
  option_loop env pre (defaults env) [] w = (Return (o1, sources1), w) ->
  fopen env (stub_file env table) = Some f ->
  (List.length f <= 4)%nat ->
  main env (pre ++ stub_option table :: post)%list w
  = (Exit 1, emit (Stderr No_hidden_files) w).
Proof.
  intros Hnostub Hpre Hf Hlen.
  apply (main_dies_at_option env pre (stub_option table) post w o1 sources1
           _ _ Hpre eq_refl).
  rewrite option_arg_stub. unfold stub_arg. unfold stub_file in Hf.
  rewrite Hf. cbn [promer PRO_THREADS set_PRO_HIDDEN].
  pose proof (fread_int_rest (order env) (promer o1) f Hlen) as Hrest.
  destruct (fread_int (order env) (promer o1) f) as [k f'].
  cbn [snd] in Hrest. subst f'.
  rewrite (no_stub_no_threads env pre w o1 sources1 w Hnostub Hpre).
  rewrite fread_int_at_end by (unfold int_range; simpl; lia).
  reflexivity.
Qed.

Lemma short_stub_ends_the_run_witness :
  let env := env_of (block_of 1000000000 1000 10) 25 empty_stub 3 in
  main env ["-k21"; "-p:small"; "reads.fa"]%string (start 256 1024)
  = (Exit 1, emit (Stderr No_hidden_files) (start 256 1024)).
Proof.
  intros env.
  assert (Hpre : option_loop env ["-k21"%string] (defaults env) [] (start 256 1024)
                 = (Return (set_KMER 21 (defaults env), []), start 256 1024))
    by (vm_compute; reflexivity).
  refine (short_stub_ends_the_run env _ ["reads.fa"%string] "small" _ _ _ []
            _ Hpre _ _).
  - repeat constructor.
  - vm_compute. reflexivity.
  - simpl. lia.
Defined.

Section Settings_range.

Variable env : Env.
Hypothesis Hmacros : checked_macros env.

Lemma defaults_in_range : settings_in_range (defaults env).
Proof.
  unfold settings_in_range. cbn. repeat split; try lia.
  exists 12. repeat split; lia.
Qed.

Lemma bind_macro_returns {A B} arg (r : option A) (k : A -> Run B) w b w' :
  bind (macro arg r) k w = (Return b, w') ->
  exists a, r = Some a /\ k a w = (Return b, w').
Proof.
  unfold bind, macro. destruct r as [a|]; [|discriminate].
  intros H. exists a. split; [reflexivity|exact H].
Qed.

Lemma stub_arg_settings table o w o' w' :
  stub_arg env table o w = (Return o', w') ->
  KMER o' = KMER o /\ NTHREADS o' = NTHREADS o /\ DO_TABLE o' = DO_TABLE o /\
  BC_PREFIX o' = BC_PREFIX o /\ SORT_MEMORY o' = SORT_MEMORY o.
Proof.
  unfold stub_arg. destruct (fopen env _) as [f|]; [|discriminate].
  destruct (fread_int _ _ f) as [k f'].
  destruct (fread_int _ _ f') as [n f''].
  destruct (n <=? 0); [discriminate|].
  intros H. injection H as <- _. repeat split.
Qed.

Lemma option_arg_in_range arg o w o' w' :
  option_arg env arg o w = (Return o', w') ->
  settings_in_range o -> settings_in_range o'.
Proof.
  destruct Hmacros as [Hpos Hnon].
  unfold settings_in_range, option_arg. cbv zeta.
  repeat match goal with
         | |- context [if ?b then _ else _] => destruct b eqn:?
         end;
    intros Hrun [HK [HT [Ht [Hb Hm]]]];
    try (unfold die in Hrun; discriminate);
    try unfold arg_flags in Hrun;
    try (apply bind_macro_returns in Hrun; destruct Hrun as [v [Hv Hrun]]);
    try (unfold ret in Hrun; injection Hrun as <- _);
    try (apply stub_arg_settings in Hrun;
         destruct Hrun as [-> [-> [-> [-> ->]]]]);
    try (apply Hpos in Hv); try (apply Hnon in Hv);
    cbn [KMER NTHREADS DO_TABLE BC_PREFIX SORT_MEMORY set_BC_PREFIX set_KMER
         set_DO_TABLE set_SORT_MEMORY set_NTHREADS set_OUT_NAME set_SORT_PATH
         set_flags];
    (split; [lia|split; [lia|split; [lia|split; [lia|]]]]);
    try exact Hm.
  exists v. split; [exact Hv|].
  apply wrap64_id. unfold int64_range.
  change (2 ^ 31) with 2147483648 in Hv.
  change (2 ^ 63) with 9223372036854775808. lia.
Qed.

Lemma apply_flags_in_range o : settings_in_range o -> settings_in_range (apply_flags o).
Proof.
  unfold settings_in_range.
  destruct (apply_flags_frame o) as [-> [-> [-> [_ [-> [_ [_ ->]]]]]]].
  intros [HK [HT [Ht [Hb Hm]]]]. repeat split; try lia; try exact Hm;
    destruct (flag (flags o) "t" =? 0); lia.
Qed.

End Settings_range.

(** X13.  With number macros that store ints of the sign their names
    promise, the settings that come out of the options are in range:
    KMER and NTHREADS are positive ints, the table cutoff and the bar
    code prefix are ints that are not negative, and SORT_MEMORY is a
    positive int times 10^9, computed without overflow, so at least
    10^9. *)
Theorem settings_come_out_in_range (env : Env) (args : list string)
    (w w' : World) (o : Options) (sources : list string) :
  checked_macros env ->
  read_options env args w = (Return (o, sources), w') ->
  settings_in_range o /\ 1000000000 <= SORT_MEMORY o < 2 ^ 63.
Proof.
  intros Hmacros Hread.
  destruct (read_options_returns env args w o sources w' Hread)
    as [_ [o0 [Hloop [-> _]]]].
  assert (Hin : settings_in_range (apply_flags o0)).
  { apply apply_flags_in_range.
    apply (option_loop_invariant env settings_in_range args)
      with (o := defaults env) (sources := []) (w := w)
           (sources' := sources) (w' := w);
      [|exact Hloop|apply defaults_in_range].
    intros arg o1 w1 o2 w2 _ _ Harg. eapply option_arg_in_range; eassumption. }
  split; [exact Hin|].
  destruct Hin as [_ [_ [_ [_ [memory [Hm ->]]]]]].
  change (2 ^ 31) with 2147483648 in Hm.
  change (2 ^ 63) with 9223372036854775808. lia.
Qed.

Section Int_macros.

Lemma int_number_bound r v : int_number r = Some v -> r = Some v /\ v < 2 ^ 31.
Proof.
  unfold int_number. destruct r as [u|]; [|discriminate].
  destruct (Z.ltb_spec u (2 ^ 31)) as [Hlt|?]; [|discriminate].
  intros Hv. injection Hv as <-. split; [reflexivity|exact Hlt].
Qed.

Lemma positive_number_positive arg name v :
  positive_number arg name = Some v -> 0 < v.
Proof.
  unfold positive_number. destruct (number_of arg) as [u|]; [|discriminate].
  destruct (Z.ltb_spec 0 u) as [Hlt|?]; [|discriminate].
  intros Hv. injection Hv as <-. exact Hlt.
Qed.

Lemma non_negative_number_non_negative arg name v :
  non_negative_number arg name = Some v -> 0 <= v.
Proof.
  unfold non_negative_number. destruct (number_of arg) as [u|]; [|discriminate].
  destruct (Z.leb_spec 0 u) as [Hle|?]; [|discriminate].
  intros Hv. injection Hv as <-. exact Hle.
Qed.

Lemma int_macros_are_checked b scheme files tid :
  checked_macros (with_int_macros (env_of b scheme files tid)).
Proof.
  split; intros arg name v H; cbn in H; apply int_number_bound in H;
    destruct H as [H Hlt]; split; try assumption.
  - eapply positive_number_positive. exact H.
  - eapply non_negative_number_non_negative. exact H.
Qed.

End Int_macros.

Lemma settings_come_out_in_range_witness :
  let env := with_int_macros (env_of (block_of 1000000000 1000 10) 25 no_files 3) in
  let o := set_SORT_MEMORY 2000000000 (set_KMER 21 (defaults env)) in
  settings_in_range o /\ 1000000000 <= SORT_MEMORY o < 2 ^ 63.
Proof.
  intros env o.
  assert (Hread : read_options env ["-k21"; "-M2"; "reads.fa"]%string (start 256 1024)
                  = (Return (o, ["reads.fa"%string]), start 256 1024))
    by (vm_compute; reflexivity).
  exact (settings_come_out_in_range env _ _ _ o _
           (int_macros_are_checked _ _ _ _) Hread).
Defined.

(** * Further properties of whole runs *)

Section Whole_runs.

Variable env : Env.

(** The loop of line 386 stops for every k-mer length up to 2^30. *)
Lemma minimizer_ring_stops K : K <= 2 ^ 30 -> minimizer_ring K <> None.
Proof.
  intros HK. unfold minimizer_ring.
  destruct (Z_lt_le_dec 0 K) as [Hpos|Hneg].
  - assert (Hn : Z.log2_up K <= 30) by (apply Z.log2_up_le_pow2; lia).
    pose proof (Z.log2_up_nonneg K) as Hn0.
    change 1 with (2 ^ 0) at 1.
    rewrite (mod_len_loop_climbs K (Z.log2_up K) Hpos eq_refl Hn 32%nat 0)
      by (simpl; lia).
    discriminate.
  - cbn [mod_len_loop]. destruct (Z.ltb_spec 1 K); [lia|discriminate].
Qed.

Lemma plan_sizes_hangs o b w w' :
  plan_sizes env o b w = (Hang, w') -> 2 ^ 30 < KMER o.
Proof.
  unfold plan_sizes. destruct (too_short (KMER o) b); [discriminate|].
  destruct (minimizer_ring (KMER o)) as [[len msk]|] eqn:E; [discriminate|].
  intros _. destruct (Z_lt_le_dec (2 ^ 30) (KMER o)) as [?|Hle]; [assumption|].
  exfalso. exact (minimizer_ring_stops _ Hle E).
Qed.

Lemma files_left_of_a_run tid n (calls : list event) d :
  Forall (fun e => is_stage e = true) calls ->
  files_left (probe tid ++ Setrlimit n :: calls)%list [] = [] /\
  files_left (probe tid ++ [Stderr d])%list [] = [].
Proof.
  intros Hcalls.
  assert (Hstages : forall acc, files_left calls acc = acc).
  { induction Hcalls as [|e l He _ IH]; intros acc; [reflexivity|].
    destruct e; try discriminate; cbn [files_left]; apply IH. }
  unfold probe. cbn [app files_left]. rewrite Hstages.
  destruct (tid <? 0); split; reflexivity.
Qed.

Lemma stage_calls_are_stages o pwd root :
  Forall (fun e => is_stage e = true) (stage_calls o pwd root).
Proof.
  unfold stage_calls.
  destruct (0 <? DO_TABLE o), (0 <? DO_PROFILE o); repeat constructor.
Qed.

End Whole_runs.

(** X14.  Every run of main ends with exit code 0, or with exit code 1
    and a message as the last thing it wrote, unless the k-mer length is
    above 2^30, the one case in which the loop of line 386 does not
    stop. *)
Theorem every_run_exits_with_0_or_1 (env : Env) (args : list string)
    (cur max : Z) :
  let r := main env args (start cur max) in
  fst r = Exit 0 \/
  (fst r = Exit 1 /\ exists t d, trace (snd r) = (t ++ [Stderr d])%list) \/
  (fst r = Hang /\
   exists s, sample env args (start cur max) = (Return s, start cur max) /\
             2 ^ 30 < KMER (opts s)).
Proof.
  cbv zeta. set (w := start cur max).
  destruct (quiet_sample env args w) as [[s Hs]|[[d Hs]|[Hh _]]];
    [| |discriminate].
  - destruct (quiet_plan_sizes env (opts s) (block s) w)
      as [[plan Hp]|[[d Hp]|[_ Hp]]].
    + rewrite (main_planned env args w s plan Hs Hp). cbv zeta.
      destruct (rlim_max w <? _).
      * right. left. split; [reflexivity|].
        exists (probe (open_xxx env)). eexists. reflexivity.
      * left. reflexivity.
    + right. left. rewrite (main_sampled env args w s Hs).
      erewrite bind_exit by (unfold prepare; apply bind_exit; exact Hp).
      split; [reflexivity|]. exists []. exists d. reflexivity.
    + right. right. rewrite (main_sampled env args w s Hs).
      erewrite bind_hang by (unfold prepare; apply bind_hang; exact Hp).
      split; [reflexivity|]. exists s. split; [exact Hs|].
      eapply plan_sizes_hangs. exact Hp.
  - right. left. unfold main. erewrite bind_exit by exact Hs.
    split; [reflexivity|]. exists []. exists d. reflexivity.
Qed.

(** X15.  No run changes the hard limit on open files.  A run changes the
    soft limit only if it goes on to the stages, and then to a number that
    is not above the hard limit; a run that exits with code 1 leaves the
    soft limit alone.  And whatever the run, the throwaway file of the
    guard is not left behind. *)
Theorem limits_and_files_after_a_run (env : Env) (args : list string)
    (cur max : Z) :
  let r := main env args (start cur max) in
  rlim_max (snd r) = max /\
  (fst r = Exit 0 ->
   rlim_cur (snd r) <= max /\ In (Setrlimit (rlim_cur (snd r))) (trace (snd r))) /\
  (fst r <> Exit 0 -> rlim_cur (snd r) = cur) /\
  files_left (trace (snd r)) [] = [].
Proof.
  cbv zeta. set (w := start cur max).
  destruct (quiet_sample env args w) as [[s Hs]|[[d Hs]|[Hh _]]];
    [| |discriminate].
  - destruct (quiet_plan_sizes env (opts s) (block s) w)
      as [[plan Hp]|[[d Hp]|[_ Hp]]].
    + rewrite (main_planned env args w s plan Hs Hp). cbv zeta.
      set (n := nfiles_of (NPARTS plan) (NTHREADS (opts s)) (open_xxx env)).
      destruct (files_left_of_a_run (open_xxx env) n _
                  (Cannot_open_files n)
                  (stage_calls_are_stages (opts s) (pwd s) (root s)))
        as [Hok Hdie].
      destruct (Z.ltb_spec (rlim_max w) n) as [Hlt|Hle]; cbn [fst snd].
      * split; [reflexivity|]. split; [discriminate|].
        split; [reflexivity|exact Hdie].
      * cbn [rlim_max rlim_cur trace w start app] in *.
        split; [reflexivity|]. split; [|split; [congruence|exact Hok]].
        intros _. split; [exact Hle|].
        apply in_or_app. right. left. reflexivity.
    + rewrite (main_sampled env args w s Hs).
      erewrite bind_exit by (unfold prepare; apply bind_exit; exact Hp).
      cbn. repeat split; discriminate.
    + rewrite (main_sampled env args w s Hs).
      erewrite bind_hang by (unfold prepare; apply bind_hang; exact Hp).
      cbn. repeat split; discriminate.
  - unfold main. erewrite bind_exit by exact Hs.
    cbn. repeat split; discriminate.
Qed.

(** * Further properties of the scratch path (lines 305-333) *)

Section Scratch_path.

Variable env : Env.

Lemma at_0_append a b : at_ a 0 = "/"%char -> at_ (a ++ b)%string 0 = "/"%char.
Proof.
  destruct a as [|c a']; [discriminate|]. intros H. exact H.
Qed.

Lemma append_empty_r t : (t ++ "")%string = t.
Proof. induction t as [|c t IH]; [reflexivity|]. cbn. rewrite IH. reflexivity. Qed.

(** A run whose scratch path is turned down ends as [scratch_path]
    ends. *)
Lemma main_dies_at_scratch_path args w o sources code w1 :
  read_options env args w = (Return (o, sources), w) ->
  scratch_path env (SORT_PATH o) w = (Exit code, w1) ->
  main env args w = (Exit code, w1).
Proof.
  intros Hread Hpath. unfold main, sample. unfold bind at 1 2. rewrite Hread.
  cbn [fst snd]. unfold bind at 1. rewrite Hpath. reflexivity.
Qed.

End Scratch_path.

(** X16.  When Catenate puts its strings one after the other and the
    working directory is an absolute path, the scratch directory that a
    run goes on with is an absolute path too, and one that opendir could
    open: [.], [./dir] and [dir] are made absolute with the working
    directory. *)
Theorem scratch_path_is_absolute (env : Env) (args : list string)
    (w w' : World) (s : Sampled) :
  catenates env ->
  at_ (getcwd env) 0 = "/"%char ->
  sample env args w = (Return s, w') ->
  at_ (SORT_PATH (opts s)) 0 = "/"%char /\
  opendir env (SORT_PATH (opts s)) = true /\
  (forall o sources,
     read_options env args w = (Return (o, sources), w) ->
     (SORT_PATH o = "."%string -> SORT_PATH (opts s) = getcwd env) /\
     (at_ (SORT_PATH o) 0 = "/"%char -> SORT_PATH (opts s) = SORT_PATH o) /\
     (at_ (SORT_PATH o) 0 <> "/"%char -> at_ (SORT_PATH o) 0 <> "."%char ->
      SORT_PATH (opts s) = (getcwd env ++ "/" ++ SORT_PATH o)%string)).
Proof.
  intros Hcat Hcwd Hrun.
  destruct (sample_returns_options env args w s w' Hrun)
    as [o [sources [path [Hread [Hpath [Hopts _]]]]]].
  rewrite Hopts. cbn [SORT_PATH set_SORT_PATH].
  unfold scratch_path in Hpath. unfold bind in Hpath.
  assert (Hshape :
    at_ path 0 = "/"%char /\ opendir env path = true /\
    (SORT_PATH o = "."%string -> path = getcwd env) /\
    (at_ (SORT_PATH o) 0 = "/"%char -> path = SORT_PATH o) /\
    (at_ (SORT_PATH o) 0 <> "/"%char -> at_ (SORT_PATH o) 0 <> "."%char ->
     path = (getcwd env ++ "/" ++ SORT_PATH o)%string)).
  { destruct (Ascii.eqb_spec (at_ (SORT_PATH o) 0) "/") as [Hslash|Hslash];
      cbn [negb] in Hpath.
    - unfold ret in Hpath.
      destruct (opendir env (SORT_PATH o)) eqn:Hdir; [|discriminate].
      injection Hpath as <-. repeat split; try assumption; try reflexivity.
      + intros Hdot. rewrite Hdot in Hslash. discriminate.
      + intros Hne. contradiction.
    - destruct (Ascii.eqb_spec (at_ (SORT_PATH o) 0) ".") as [Hdot|Hdot].
      + destruct (Ascii.eqb_spec (at_ (SORT_PATH o) 1) "/") as [H1|H1].
        * unfold ret in Hpath. rewrite Hcat in Hpath.
          destruct (opendir env _) eqn:Hdir; [|discriminate].
          injection Hpath as <-. split; [apply at_0_append; exact Hcwd|].
          split; [exact Hdir|]. split; [|split].
          -- intros E. rewrite E in H1. discriminate.
          -- intros E. contradiction.
          -- intros _ E. contradiction.
        * destruct (Ascii.eqb_spec (at_ (SORT_PATH o) 1) NUL) as [H0|H0];
            [|discriminate].
          unfold ret in Hpath.
          destruct (opendir env (getcwd env)) eqn:Hdir; [|discriminate].
          injection Hpath as <-. split; [exact Hcwd|].
          split; [exact Hdir|]. split; [reflexivity|]. split.
          -- intros E. contradiction.
          -- intros _ E. contradiction.
      + unfold ret in Hpath. rewrite Hcat in Hpath.
        destruct (opendir env _) eqn:Hdir; [|discriminate].
        injection Hpath as <-. split; [apply at_0_append; exact Hcwd|].
        split; [exact Hdir|]. split; [|split].
        * intros E. rewrite E in Hdot. contradiction Hdot. reflexivity.
        * intros E. contradiction.
        * intros _ _. rewrite append_empty_r. reflexivity. }
  destruct Hshape as [Habs [Hdir Hcases]].
  split; [exact Habs|]. split; [exact Hdir|].
  intros o' sources' Hread'. rewrite Hread in Hread'.
  injection Hread' as <- _. exact Hcases.
Qed.

Lemma scratch_path_is_absolute_witness :
  let env := env_of (block_of 1000000000 1000 10) 25 no_files 3 in
  let s := {| opts := set_SORT_PATH "/work/tmp" (defaults env);
              Driver.root := "reads"; pwd := ".";
              block := block_of 1000000000 1000 10 |} in
  at_ (SORT_PATH (opts s)) 0 = "/"%char /\ opendir env (SORT_PATH (opts s)) = true.
Proof.
  intros env s.
  assert (Hs : sample env ["-Ptmp"; "reads.fa"]%string (start 256 1024)
               = (Return s, start 256 1024)) by (vm_compute; reflexivity).
  destruct (scratch_path_is_absolute env _ _ _ s
              (fun a b c d => eq_refl) eq_refl Hs) as [Habs [Hdir _]].
  split; [exact Habs | exact Hdir].
Defined.

(** X17.  A scratch directory that starts with a dot followed by
    something other than a slash, or one that opendir does not open,
    ends the run: main exits with code 1 after saying which, and the
    input is never sampled. *)
Theorem bad_scratch_directory_ends_the_run (env : Env) (args : list string)
    (w : World) (o : Options) (sources : list string) :
  read_options env args w = (Return (o, sources), w) ->
  (at_ (SORT_PATH o) 0 = "."%char ->
   at_ (SORT_PATH o) 1 <> "/"%char -> at_ (SORT_PATH o) 1 <> NUL ->
   main env args w = (Exit 1, emit (Stderr Dot_not_followed_by_slash) w)) /\
  (at_ (SORT_PATH o) 0 = "/"%char -> opendir env (SORT_PATH o) = false ->
   main env args w
   = (Exit 1, emit (Stderr (Cannot_open_directory (SORT_PATH o))) w)) /\
  ((forall path, opendir env path = false) ->
   exists d, main env args w = (Exit 1, emit (Stderr d) w)).
Proof.
  intros Hread. split; [|split].
  - intros Hdot H1 H0.
    apply (main_dies_at_scratch_path env args w o sources _ _ Hread).
    unfold scratch_path, bind. rewrite Hdot. cbn [Ascii.eqb Bool.eqb andb negb].
    destruct (Ascii.eqb_spec (at_ (SORT_PATH o) 1) "/"); [contradiction|].
    destruct (Ascii.eqb_spec (at_ (SORT_PATH o) 1) NUL); [contradiction|].
    reflexivity.
  - intros Hslash Hdir.
    apply (main_dies_at_scratch_path env args w o sources _ _ Hread).
    unfold scratch_path, bind. rewrite Hslash. cbn [Ascii.eqb Bool.eqb andb negb].
    unfold ret. rewrite Hdir. reflexivity.
  - intros Hclosed.
    destruct (quiet_scratch_path env (SORT_PATH o) w) as [[path P]|[[d P]|[Hh _]]];
      [| |discriminate].
    + exfalso. unfold scratch_path, bind, ret, die in P.
      repeat match type of P with
             | context [if ?b then _ else _] =>
                 let E := fresh "E" in destruct b eqn:E
             end;
        try discriminate;
        match goal with
        | E : opendir env _ = true |- _ => rewrite Hclosed in E; discriminate
        end.
    + exists d. apply (main_dies_at_scratch_path env args w o sources _ _ Hread P).
Qed.

Lemma bad_scratch_directory_ends_the_run_witness :
  let env := env_of (block_of 1000000000 1000 10) 25 no_files 3 in
  main env ["-P.hidden"; "reads.fa"]%string (start 256 1024)
  = (Exit 1, emit (Stderr Dot_not_followed_by_slash) (start 256 1024)).
Proof.
  intros env.
  assert (Hread : read_options env ["-P.hidden"; "reads.fa"]%string (start 256 1024)
                  = (Return (set_SORT_PATH ".hidden" (defaults env),
                             ["reads.fa"%string]), start 256 1024))
    by (vm_compute; reflexivity).
  destruct (bad_scratch_directory_ends_the_run env _ _ _ _ Hread) as [Hdot _].
  apply Hdot; [reflexivity | vm_compute; discriminate | vm_compute; discriminate].
Defined.

(** * Properties of the resource report (lines 93-151) *)

Section Clock.

(** Between two readings in order the borrow leaves seconds that are not
    negative and micro-seconds below a million, and loses nothing. *)
Lemma elapsed_of_later sec1 sec0 mic1 mic0 :
  later sec1 sec0 mic1 mic0 ->
  exists secs mics,
    elapsed sec1 sec0 mic1 mic0 = (secs, mics) /\
    0 <= secs < 2 ^ 31 /\ 0 <= mics < 1000000 /\
    secs * 1000000 + mics = span sec1 sec0 mic1 mic0.
Proof.
  unfold later, span, elapsed. intros [H0 [H1 [Hord Hfit]]].
  change (2 ^ 31) with 2147483648 in *.
  assert (Hsec : 0 <= sec1 - sec0) by lia.
  assert (Hint : forall z, -2147483648 <= z < 2147483648 -> wrap32 (wrap64 z) = z).
  { intros z Hz.
    rewrite wrap64_id
      by (unfold int64_range; change (2 ^ 63) with 9223372036854775808; lia).
    apply wrap32_id. unfold int_range. change (2 ^ 31) with 2147483648. lia. }
  assert (Hint32 : forall z, -2147483648 <= z < 2147483648 -> wrap32 z = z).
  { intros z Hz. apply wrap32_id. unfold int_range.
    change (2 ^ 31) with 2147483648. lia. }
  cbv zeta. rewrite (Hint (sec1 - sec0)), (Hint (mic1 - mic0)) by lia.
  destruct (Z.ltb_spec (mic1 - mic0) 0) as [Hneg|Hpos].
  - rewrite (Hint32 (sec1 - sec0 - 1)), (Hint32 (mic1 - mic0 + 1000000)) by lia.
    eexists. eexists. split; [reflexivity|]. lia.
  - eexists. eexists. split; [reflexivity|]. lia.
Qed.

(** What is printed is the time in milli-seconds, rounded down, in
    fields that fill their formats. *)
Lemma show_in_ms secs mics :
  0 <= secs -> 0 <= mics < 1000000 ->
  shown_ms (show (secs, mics)) = (secs * 1000000 + mics) / 1000 /\
  shown_in_format (show (secs, mics)) /\
  ((exists m s ms, show (secs, mics) = Minutes m s ms) <-> 60 <= secs).
Proof.
  intros Hs Hm. unfold show.
  assert (Hms : (secs * 1000000 + mics) / 1000 = secs * 1000 + mics / 1000).
  { replace (secs * 1000000 + mics) with (mics + (secs * 1000) * 1000) by lia.
    rewrite Z.div_add by lia. lia. }
  assert (Hq : Z.quot mics 1000 = mics / 1000) by (apply Z.quot_div_nonneg; lia).
  pose proof (Z.div_mod mics 1000 ltac:(lia)).
  pose proof (Z.mod_pos_bound mics 1000 ltac:(lia)).
  destruct (Z.leb_spec 60 secs) as [Hlong|Hshort].
  - rewrite Hq, Z.quot_div_nonneg, Z.rem_mod_nonneg by lia.
    pose proof (Z.div_mod secs 60 ltac:(lia)).
    pose proof (Z.mod_pos_bound secs 60 ltac:(lia)).
    cbn [shown_ms shown_in_format]. rewrite Hms.
    split; [lia|]. split; [lia|].
    split; [intros _; exact Hlong|]. intros _. do 3 eexists. reflexivity.
  - rewrite Hq. cbn [shown_ms shown_in_format]. rewrite Hms.
    split; [lia|]. split; [lia|].
    split; [intros [m [s [ms E]]]; discriminate | lia].
Qed.

Lemma show_elapsed sec1 sec0 mic1 mic0 :
  later sec1 sec0 mic1 mic0 ->
  let t := show (elapsed sec1 sec0 mic1 mic0) in
  shown_ms t = span sec1 sec0 mic1 mic0 / 1000 /\
  shown_in_format t /\
  ((exists m s ms, t = Minutes m s ms)
   <-> 60000000 <= span sec1 sec0 mic1 mic0).
Proof.
  intros Hlater. cbv zeta.
  destruct (elapsed_of_later _ _ _ _ Hlater) as [secs [mics [-> [Hs [Hm Hspan]]]]].
  destruct (show_in_ms secs mics ltac:(lia) Hm) as [Hms [Hfmt Hmin]].
  rewrite <- Hspan. split; [exact Hms|]. split; [exact Hfmt|].
  rewrite Hmin. lia.
Qed.

End Clock.

(** X18.  When each of the three clocks was read at start and is read
    again not before and less than 2^31 seconds later, with micro-seconds
    below a million, timeTo prints for each the time passed in
    milli-seconds, rounded down: in seconds only if it is below a minute,
    else with minutes and two digits of seconds, always with three digits
    of milli-seconds.  The wall clock goes by its nano-seconds cut to
    micro-seconds.  The memory is the growth of ru_maxrss divided by a
    million, toward zero. *)
Theorem timeTo_shows_the_time_passed (st : Started) (now : rusage)
    (today : timespec) :
  later (tv_sec (ru_utime now)) (tv_sec (ru_utime (Itime st)))
        (tv_usec (ru_utime now)) (tv_usec (ru_utime (Itime st))) ->
  later (tv_sec (ru_stime now)) (tv_sec (ru_stime (Itime st)))
        (tv_usec (ru_stime now)) (tv_usec (ru_stime (Itime st))) ->
  later (ts_sec today) (ts_sec (Iwall st))
        (Z.quot (tv_nsec today) 1000) (Z.quot (tv_nsec (Iwall st)) 1000) ->
  int64_range (ru_maxrss now - ru_maxrss (Itime st)) ->
  let r := timeTo st now today in
  (shown_ms (user r)
   = (micro_seconds (ru_utime now) - micro_seconds (ru_utime (Itime st))) / 1000 /\
   shown_in_format (user r) /\
   ((exists m s ms, user r = Minutes m s ms) <->
    60000000 <= micro_seconds (ru_utime now) - micro_seconds (ru_utime (Itime st)))) /\
  (shown_ms (system r)
   = (micro_seconds (ru_stime now) - micro_seconds (ru_stime (Itime st))) / 1000 /\
   shown_in_format (system r)) /\
  (shown_ms (wall r)
   = span (ts_sec today) (ts_sec (Iwall st))
          (Z.quot (tv_nsec today) 1000) (Z.quot (tv_nsec (Iwall st)) 1000) / 1000 /\
   shown_in_format (wall r)) /\
  mem r = Z.quot (ru_maxrss now - ru_maxrss (Itime st)) 1000000.
Proof.
  intros Hu Hs Hw Hmem. cbv zeta. unfold timeTo. cbn [user system wall mem].
  destruct (show_elapsed _ _ _ _ Hu) as [Hu1 [Hu2 Hu3]].
  destruct (show_elapsed _ _ _ _ Hs) as [Hs1 [Hs2 _]].
  destruct (show_elapsed _ _ _ _ Hw) as [Hw1 [Hw2 _]].
  unfold span, micro_seconds in *.
  split; [split; [exact Hu1|split; [exact Hu2|exact Hu3]]|].
  split; [split; [exact Hs1|exact Hs2]|].
  split; [split; [exact Hw1|exact Hw2]|].
  rewrite wrap64_id by exact Hmem. reflexivity.
Qed.

Lemma timeTo_shows_the_time_passed_witness :
  let st := startTime
              {| ru_utime := {| tv_sec := 10; tv_usec := 900000 |};
                 ru_stime := {| tv_sec := 1; tv_usec := 0 |};
                 ru_maxrss := 5000000 |}
              {| ts_sec := 100; tv_nsec := 999999999 |} in
  let now := {| ru_utime := {| tv_sec := 135; tv_usec := 100500 |};
                ru_stime := {| tv_sec := 3; tv_usec := 250000 |};
                ru_maxrss := 250000000 |} in
  let today := {| ts_sec := 230; tv_nsec := 1000 |} in
  timeTo st now today
  = {| user := Minutes 2 4 200; system := Seconds 2 250;
       wall := Minutes 2 9 0; mem := 245 |} /\
  shown_ms (user (timeTo st now today)) = 124200.
Proof.
  intros st now today. split; [vm_compute; reflexivity|].
  assert (Hu : later 135 10 100500 900000) by (unfold later; lia).
  assert (Hs : later 3 1 250000 0) by (unfold later; lia).
  assert (Hw : later 230 100 (Z.quot 1000 1000) (Z.quot 999999999 1000))
    by (unfold later; cbn; lia).
  destruct (timeTo_shows_the_time_passed st now today Hu Hs Hw
              ltac:(vm_compute; split; congruence)) as [[Hms _] _].
  exact Hms.
Defined.

(** * The empty block *)

(** X19.  A first block without a read and without a base is not turned
    down as too short: for a k-mer length up to 2^30 the planner goes
    through, and when the projected size is 0 bytes it plans one part. *)
Theorem empty_block_gets_one_part (env : Env) (o : Options) (b : DATA_BLOCK)
    (w : World) :
  totlen b = 0 -> nreads b = 0 -> KMER o <= 2 ^ 30 ->
  too_short (KMER o) b = false /\
  exists plan,
    plan_sizes env o b w = (Return plan, w) /\
    (ratio_product b 0 (rsize_of (KMER o)) = 0 -> 1 < SORT_MEMORY o ->
     NPARTS plan = 1).
Proof.
  intros Htot Hreads HK.
  assert (Hg : gsize_of (KMER o) b = 0).
  { unfold gsize_of. rewrite Htot, Hreads, Z.mul_0_r. reflexivity. }
  assert (Hshort : too_short (KMER o) b = false).
  { unfold too_short. rewrite Hg, Htot. reflexivity. }
  split; [exact Hshort|].
  unfold plan_sizes. rewrite Hshort.
  destruct (minimizer_ring (KMER o)) as [[len msk]|] eqn:E;
    [|exfalso; exact (minimizer_ring_stops _ HK E)].
  eexists. split; [reflexivity|].
  intros Hzero HM. cbn [NPARTS]. unfold projected. rewrite Hg, Hzero.
  rewrite NPARTS_of_ceiling; [reflexivity|lia|exact HM|reflexivity].
Qed.

Lemma empty_block_gets_one_part_witness :
  let b := block_of 0 0 10 in
  let env := env_of b 25 no_files 3 in
  main env ["reads.fa"]%string (start 256 1024)
  = (Exit 0,
     {| trace := [Open ".xxx" 3; Close 3; Unlink ".xxx"; Setrlimit 15;
                  Split_Kmers "reads"; Sorting "." "reads"];
        rlim_cur := 15; rlim_max := 1024 |}) /\
  too_short 40 b = false.
Proof.
  intros b env. split; [vm_compute; reflexivity|].
  exact (proj1 (empty_block_gets_one_part env (defaults env) b (start 256 1024)
                  eq_refl eq_refl ltac:(simpl; lia))).
Defined.
